(** * CrossRetail: the BigQuery analytical views

    A shallow embedding of [backend/scripts/create_bigquery_views.sql]: the
    four views [latest_prices], [arbitrage_opportunities],
    [price_history_aggregated] and [product_brands], read as functions from
    the rows of their source table to the rows they produce.

    Conventions of the embedding.
    - A table is a [list] of rows.  SQL tables are bags; the order of the list
      stands for the order in which the engine happens to enumerate the rows,
      which SQL leaves unspecified.  Every theorem below quantifies over all
      lists, hence over all enumeration orders.
    - A nullable column is an [option]; [None] is SQL's NULL.
    - A TIMESTAMP is the number of microseconds since the epoch, in [Z].
    - Prices are exact rationals ([Q]); numeric equality is [Qeq] ([==]).
      BigQuery rounds a quotient to the precision of its numeric type; the
      theorems use no more of a quotient than its sign, the test of its
      divisor against zero and comparisons of the stored column.
    - The [/] operator of BigQuery raises a division-by-zero error, which
      fails the whole query: a query returns a [result]. *)

From Stdlib Require Import List String Ascii Bool ZArith QArith Lia Lqa.
From Stdlib Require Import Sorting.Sorted Sorting.Permutation.
Import ListNotations.

(** ** Relational operators *)

Module Sql.

(** The distinct values of a column, in order of first occurrence. *)
Fixpoint distinct {K : Type} (eqb : K -> K -> bool) (l : list K) : list K :=
  match l with
  | [] => []
  | k :: t => k :: filter (fun k' => negb (eqb k k')) (distinct eqb t)
  end.

(** The rows of one group: those whose grouping key is [k]. *)
Definition group_rows {A K : Type} (key : A -> K) (eqb : K -> K -> bool)
    (k : K) (rows : list A) : list A :=
  filter (fun r => eqb (key r) k) rows.

(** GROUP BY (and PARTITION BY): one group per distinct key. *)
Definition group_by {A K : Type} (key : A -> K) (eqb : K -> K -> bool)
    (rows : list A) : list (K * list A) :=
  map (fun k => (k, group_rows key eqb k rows)) (distinct eqb (map key rows)).

(** [leb x y]: the ORDER BY clause allows [x] to come before [y]. *)
Fixpoint insert {A : Type} (leb : A -> A -> bool) (x : A) (l : list A) : list A :=
  match l with
  | [] => [x]
  | y :: t => if leb x y then x :: y :: t else y :: insert leb x t
  end.

(** ORDER BY.  SQL fixes no order among the rows that the clause does not
    distinguish; here they keep the order in which the engine enumerated
    them (a stable insertion sort), one of the orders SQL allows. *)
Definition order_by {A : Type} (leb : A -> A -> bool) (l : list A) : list A :=
  fold_right (insert leb) [] l.

(** The outcome of a query: its rows, or the error of a division by zero. *)
Inductive result (A : Type) : Type :=
| Ok (rows : A)
| DivisionByZero.
Arguments Ok {A} rows.
Arguments DivisionByZero {A}.

(** All the groups are evaluated; one failing expression fails the query. *)
Fixpoint traverse {A B : Type} (f : A -> result B) (l : list A) : result (list B) :=
  match l with
  | [] => Ok []
  | a :: t =>
      match f a with
      | DivisionByZero => DivisionByZero
      | Ok b =>
          match traverse f t with
          | DivisionByZero => DivisionByZero
          | Ok bs => Ok (b :: bs)
          end
      end
  end.

(** The non-NULL values of a column: aggregates skip NULLs. *)
Fixpoint non_null {A : Type} (l : list (option A)) : list A :=
  match l with
  | [] => []
  | Some a :: t => a :: non_null t
  | None :: t => non_null t
  end.

(** [MIN] and [MAX] of a column under an order [leb]; NULL on no value. *)
Definition least {A : Type} (leb : A -> A -> bool) (a b : A) : A :=
  if leb a b then a else b.

Definition greatest {A : Type} (leb : A -> A -> bool) (a b : A) : A :=
  if leb a b then b else a.

Definition agg_min {A : Type} (leb : A -> A -> bool) (l : list (option A)) : option A :=
  match non_null l with
  | [] => None
  | a :: t => Some (fold_left (least leb) t a)
  end.

Definition agg_max {A : Type} (leb : A -> A -> bool) (l : list (option A)) : option A :=
  match non_null l with
  | [] => None
  | a :: t => Some (fold_left (greatest leb) t a)
  end.

(** [AVG]: the sum of the non-NULL values over their number. *)
Definition agg_avg (l : list (option Q)) : option Q :=
  match non_null l with
  | [] => None
  | a :: t => Some (fold_left Qplus t a / inject_Z (Z.of_nat (List.length (a :: t))))
  end.

(** [COUNT(DISTINCT c)] of a non-nullable column. *)
Definition count_distinct {K : Type} (eqb : K -> K -> bool) (l : list K) : Z :=
  Z.of_nat (List.length (distinct eqb l)).

(** Scalar operators: NULL in, NULL out; [/] fails on a zero divisor. *)
Definition sub (a b : option Q) : option Q :=
  match a, b with
  | Some x, Some y => Some (x - y)
  | _, _ => None
  end.

Definition mul (a b : option Q) : option Q :=
  match a, b with
  | Some x, Some y => Some (x * y)
  | _, _ => None
  end.

Definition div (a b : option Q) : result (option Q) :=
  match a, b with
  | Some x, Some y => if Qeq_bool y 0 then DivisionByZero else Ok (Some (x / y))
  | _, _ => Ok None
  end.

(** [a >= b] is TRUE (a comparison with NULL is not). *)
Definition ge (a b : option Q) : bool :=
  match a, b with
  | Some x, Some y => Qle_bool y x
  | _, _ => false
  end.

(** Sort order of a nullable key: ascending, NULLs first. *)
Definition nulls_first {A : Type} (leb : A -> A -> bool) (a b : option A) : bool :=
  match a, b with
  | None, _ => true
  | Some _, None => false
  | Some x, Some y => leb x y
  end.

End Sql.

(** ** The source table [retail_intelligence.products] *)

Module Products.

(** One scraped observation.  [product_id], [site] and [scraped_at] are set
    by ingestion for every row; the other columns are nullable. *)
Record row : Type := mk {
  product_id : string;
  site : string;
  url : option string;
  title : option string;
  description : option string;
  price : option Q;
  currency : option string;
  rating : option Q;
  review_count : option Z;
  availability : option string;
  image_urls : list string;
  scraped_at : Z;
  brand : option string;
  model : option string;
  category : option string;
  sku : option string;
  gcs_path : option string
}.

End Products.

(** Equality of nullable strings as a grouping key (NULLs group together). *)
Definition option_string_eqb (a b : option string) : bool :=
  match a, b with
  | Some x, Some y => String.eqb x y
  | None, None => true
  | _, _ => false
  end.

(** ** View [latest_prices] *)

Module LatestPrices.

(** A row of the view: the columns of the observation and its row number. *)
Record row : Type := mk {
  obs : Products.row;
  rn : Z
}.

Definition usec_per_day : Z := 86400 * 1000000.

(** [TIMESTAMP_SUB(t, INTERVAL n DAY)] *)
Definition timestamp_sub_days (t n : Z) : Z := t - n * usec_per_day.

(** [PARTITION BY product_id, site] *)
Definition key (r : Products.row) : string * string :=
  (Products.product_id r, Products.site r).

Definition key_eqb (a b : string * string) : bool :=
  String.eqb (fst a) (fst b) && String.eqb (snd a) (snd b).

(** [ORDER BY scraped_at DESC] *)
Definition scraped_at_desc (a b : Products.row) : bool :=
  (Products.scraped_at b <=? Products.scraped_at a)%Z.

Fixpoint number_rows (n : Z) (l : list Products.row) : list row :=
  match l with
  | [] => []
  | r :: t => mk r n :: number_rows (n + 1) t
  end.

(** [ROW_NUMBER() OVER (PARTITION BY ... ORDER BY scraped_at DESC)], on the
    rows of one partition. *)
Definition row_number (partition : list Products.row) : list row :=
  number_rows 1 (Sql.order_by scraped_at_desc partition).

(** [WHERE scraped_at >= TIMESTAMP_SUB(CURRENT_TIMESTAMP(), INTERVAL 30 DAY)] *)
Definition in_window (now : Z) (r : Products.row) : bool :=
  (timestamp_sub_days now 30 <=? Products.scraped_at r)%Z.

(** The view, with [CURRENT_TIMESTAMP()] passed as [now]. *)
Definition latest_prices (now : Z) (products : list Products.row) : list row :=
  let windowed := filter (in_window now) products in
  let numbered :=
    flat_map (fun g => row_number (snd g)) (Sql.group_by key key_eqb windowed) in
  filter (fun l => (rn l =? 1)%Z) numbered.

(** The key of a view row, and the property that the view holds at most one
    row per key. *)
Definition row_key (l : row) : string * string := key (obs l).

Definition keys_unique (latest : list row) : Prop :=
  NoDup (map row_key latest).

(** [QUALIFY rn = 1] keeps the first row of the sorted partition. *)
Definition top (partition : list Products.row) : list row :=
  match Sql.order_by scraped_at_desc partition with
  | [] => []
  | r :: _ => [mk r 1]
  end.

End LatestPrices.

(** ** View [arbitrage_opportunities] *)

Module Arbitrage.

Import Sql.

(** A row of [price_comparison]. *)
Record row : Type := mk {
  product_id : string;
  title : option string;
  min_price : option Q;
  max_price : option Q;
  price_diff : option Q;
  profit_margin_pct : option Q;
  retailer_count : Z;
  cheapest_retailer : option string;
  expensive_retailer : option string
}.

Definition price (l : LatestPrices.row) : option Q :=
  Products.price (LatestPrices.obs l).

Definition site (l : LatestPrices.row) : string :=
  Products.site (LatestPrices.obs l).

(** [WHERE price IS NOT NULL] *)
Definition priced (l : LatestPrices.row) : bool :=
  match price l with
  | Some _ => true
  | None => false
  end.

(** [GROUP BY product_id, title] *)
Definition key (l : LatestPrices.row) : string * option string :=
  (Products.product_id (LatestPrices.obs l), Products.title (LatestPrices.obs l)).

Definition key_eqb (a b : string * option string) : bool :=
  String.eqb (fst a) (fst b) && option_string_eqb (snd a) (snd b).

(** [ORDER BY price] and [ORDER BY price DESC] inside [ARRAY_AGG] *)
Definition price_asc (a b : LatestPrices.row) : bool :=
  nulls_first Qle_bool (price a) (price b).

Definition price_desc (a b : LatestPrices.row) : bool :=
  nulls_first Qle_bool (price b) (price a).

(** [ARRAY_AGG(site ORDER BY ... LIMIT 1)[OFFSET(0)]] *)
Definition first_site (leb : LatestPrices.row -> LatestPrices.row -> bool)
    (rows : list LatestPrices.row) : option string :=
  hd_error (map site (order_by leb rows)).

(** The SELECT list of [price_comparison], on one group. *)
Definition select_group (g : (string * option string) * list LatestPrices.row)
    : result row :=
  let rows := snd g in
  let prices := map price rows in
  let mn := agg_min Qle_bool prices in
  let mx := agg_max Qle_bool prices in
  match div (sub mx mn) mn with
  | DivisionByZero => DivisionByZero
  | Ok q =>
      Ok (mk (fst (fst g)) (snd (fst g))
             mn mx (sub mx mn) (mul q (Some 100))
             (count_distinct String.eqb (map site rows))
             (first_site price_asc rows)
             (first_site price_desc rows))
  end.

(** [HAVING profit_margin_pct >= m AND price_diff >= d] *)
Definition having (m d : Q) (o : row) : bool :=
  ge (profit_margin_pct o) (Some m) && ge (price_diff o) (Some d).

(** [ORDER BY profit_margin_pct DESC] *)
Definition margin_desc (a b : row) : bool :=
  nulls_first Qle_bool (profit_margin_pct b) (profit_margin_pct a).

(** The common table expression [price_comparison]: WHERE, GROUP BY, the
    SELECT list and HAVING.  Its two HAVING literals are taken as the
    parameters [min_margin_pct] and [min_price_diff], the thresholds that
    the arbitrage page sends with its request. *)
Definition price_comparison (min_margin_pct min_price_diff : Q)
    (latest : list LatestPrices.row) : result (list row) :=
  match traverse select_group (group_by key key_eqb (filter priced latest)) with
  | DivisionByZero => DivisionByZero
  | Ok rows => Ok (filter (having min_margin_pct min_price_diff) rows)
  end.

(** [SELECT * FROM price_comparison ORDER BY profit_margin_pct DESC] *)
Definition arbitrage_query (min_margin_pct min_price_diff : Q)
    (latest : list LatestPrices.row) : result (list row) :=
  match price_comparison min_margin_pct min_price_diff latest with
  | DivisionByZero => DivisionByZero
  | Ok rows => Ok (order_by margin_desc rows)
  end.

(** The view as the script creates it: a minimum margin of 5 percent and a
    minimum difference of 1.0. *)
Definition arbitrage_opportunities (latest : list LatestPrices.row)
    : result (list row) :=
  arbitrage_query 5 1 latest.

(** The rows aggregated into the group of key [k]. *)
Definition group_of (latest : list LatestPrices.row) (k : string * option string)
    : list LatestPrices.row :=
  group_rows key key_eqb k (filter priced latest).

(** The number of opportunities a query returns (none when it fails). *)
Definition result_count (r : result (list row)) : nat :=
  match r with
  | Ok rows => List.length rows
  | DivisionByZero => O
  end.

Definition row_product_id (l : LatestPrices.row) : string :=
  Products.product_id (LatestPrices.obs l).

Definition row_title (l : LatestPrices.row) : option string :=
  Products.title (LatestPrices.obs l).

(** The rows of product [p] that have a price, and the number of distinct
    retailers among them. *)
Definition priced_rows_of (latest : list LatestPrices.row) (p : string)
    : list LatestPrices.row :=
  filter (fun l => priced l && String.eqb (row_product_id l) p) latest.


(** The order that the specification asks of the result, for comparison
    with [margin_desc]: margin descending, then price difference descending,
    then product_id ascending. *)
Definition spec_order (a b : row) : bool :=
  match profit_margin_pct a, profit_margin_pct b, price_diff a, price_diff b with
  | Some ma, Some mb, Some da, Some db =>
      if Qeq_bool ma mb then
        if Qeq_bool da db then String.leb (product_id a) (product_id b)
        else Qle_bool db da
      else Qle_bool mb ma
  | _, _, _, _ => false
  end.

(** The retailer that the specification asks for, for comparison with
    [first_site]: among the rows priced [p], the site first in string order. *)
Definition spec_first_site (rows : list LatestPrices.row) (p : Q) : option string :=
  agg_min String.leb
    (map (fun l => Some (site l))
       (filter (fun l => match price l with
                         | Some q => Qeq_bool q p
                         | None => false
                         end) rows)).

End Arbitrage.

(** ** View [price_history_aggregated] *)

Module PriceHistory.

Import Sql.

Record row : Type := mk {
  product_id : string;
  date : Z;
  site : string;
  avg_price : option Q;
  min_price : option Q;
  max_price : option Q;
  currency : option string;
  data_points : Z
}.

(** [DATE(scraped_at)]: the day, counted from the epoch, in UTC. *)
Definition date_of (t : Z) : Z := (t / LatestPrices.usec_per_day)%Z.

(** [WHERE price IS NOT NULL AND scraped_at >= TIMESTAMP_SUB(now, INTERVAL 90 DAY)] *)
Definition selected (now : Z) (r : Products.row) : bool :=
  match Products.price r with
  | Some _ => (LatestPrices.timestamp_sub_days now 90 <=? Products.scraped_at r)%Z
  | None => false
  end.

(** [GROUP BY product_id, DATE(scraped_at), site] *)
Definition key (r : Products.row) : string * Z * string :=
  (Products.product_id r, date_of (Products.scraped_at r), Products.site r).

Definition key_eqb (a b : string * Z * string) : bool :=
  String.eqb (fst (fst a)) (fst (fst b)) &&
  (snd (fst a) =? snd (fst b))%Z &&
  String.eqb (snd a) (snd b).

Definition select_group (g : (string * Z * string) * list Products.row) : row :=
  let rows := snd g in
  let prices := map Products.price rows in
  mk (fst (fst (fst g))) (snd (fst (fst g))) (snd (fst g))
     (agg_avg prices)
     (agg_min Qle_bool prices)
     (agg_max Qle_bool prices)
     (agg_max String.leb (map Products.currency rows))
     (Z.of_nat (List.length rows)).

(** The view, with [CURRENT_TIMESTAMP()] passed as [now]. *)
Definition price_history_aggregated (now : Z) (products : list Products.row)
    : list row :=
  map select_group (group_by key key_eqb (filter (selected now) products)).

(** The observations aggregated into the point of key [k]. *)
Definition group_of (now : Z) (products : list Products.row)
    (k : string * Z * string) : list Products.row :=
  group_rows key key_eqb k (filter (selected now) products).

(** The reading of the specification, for comparison: the currency of the
    most recently scraped observation of the day that has one. *)
Definition last_observed_currency (rows : list Products.row) : option string :=
  match order_by LatestPrices.scraped_at_desc
          (filter (fun r => match Products.currency r with
                            | Some _ => true
                            | None => false
                            end) rows) with
  | [] => None
  | r :: _ => Products.currency r
  end.

End PriceHistory.

(** ** View [product_brands] *)

Module ProductBrands.

Import Sql.

Record row : Type := mk {
  brand : option string;
  product_count : Z;
  retailer_count : Z;
  avg_price : option Q;
  min_price : option Q;
  max_price : option Q
}.

Definition row_brand (l : LatestPrices.row) : option string :=
  Products.brand (LatestPrices.obs l).

Definition row_product_id (l : LatestPrices.row) : string :=
  Products.product_id (LatestPrices.obs l).

Definition row_site (l : LatestPrices.row) : string :=
  Products.site (LatestPrices.obs l).

Definition row_price (l : LatestPrices.row) : option Q :=
  Products.price (LatestPrices.obs l).

(** [WHERE brand IS NOT NULL AND brand != ''] *)
Definition branded (l : LatestPrices.row) : bool :=
  match row_brand l with
  | Some b => negb (String.eqb b EmptyString)
  | None => false
  end.

Definition select_group (g : option string * list LatestPrices.row) : row :=
  let rows := snd g in
  let prices := map row_price rows in
  mk (fst g)
     (count_distinct String.eqb (map row_product_id rows))
     (count_distinct String.eqb (map row_site rows))
     (agg_avg prices)
     (agg_min Qle_bool prices)
     (agg_max Qle_bool prices).

(** [ORDER BY product_count DESC] *)
Definition count_desc (a b : row) : bool :=
  (product_count b <=? product_count a)%Z.

Definition product_brands (latest : list LatestPrices.row) : list row :=
  order_by count_desc
    (map select_group
       (group_by row_brand option_string_eqb (filter branded latest))).

(** Three latest rows of brand Acme over two products and two sites, next to
    a row without brand and a row of empty brand. *)
Definition acme_row (p s : string) (b : option string) : LatestPrices.row :=
  LatestPrices.mk
    (Products.mk p s None (Some "Widget"%string) None (Some 10) (Some "USD"%string)
       None None None [] 0%Z b None None None None)
    1%Z.

Definition acme_latest : list LatestPrices.row :=
  [ acme_row "P1" "amazon" (Some "Acme"%string);
    acme_row "P1" "walmart" (Some "Acme"%string);
    acme_row "P3" "kohls" None;
    acme_row "P2" "amazon" (Some "Acme"%string);
    acme_row "P4" "kmart" (Some EmptyString) ].

End ProductBrands.

(** ** The pages of the web application

    The state that the React components keep, and the pure functions they
    apply to it.  A JavaScript string is a [string], an array a [list], a
    number that the code only copies or steps by one a [Q] or a [Z]. *)

(** *** Selections: the compare page and the search filters *)

Module Selection.

(** [l.includes(x)] *)
Definition includes (l : list string) (x : string) : bool :=
  existsb (String.eqb x) l.

(** [l.includes(x) ? l.filter((y) => y !== x) : [...l, x]], the expression of
    [handleProductSelect], [toggleBrand] and [toggleRetailer]. *)
Definition toggle (l : list string) (x : string) : list string :=
  if includes l x
  then filter (fun y => negb (String.eqb y x)) l
  else l ++ [x].

(** The compare page: the state update of [handleProductSelect]. *)
Definition handleProductSelect (prev : list string) (productId : string)
    : list string :=
  toggle prev productId.

Definition comma : ascii := ","%char.

(** [s.split(',')] *)
Fixpoint split (s : string) : list string :=
  match s with
  | EmptyString => [EmptyString]
  | String c rest =>
      if Ascii.eqb c comma then EmptyString :: split rest
      else match split rest with
           | [] => [String c EmptyString]
           | piece :: pieces => String c piece :: pieces
           end
  end.

(** Whether a name holds a comma. *)
Fixpoint has_comma (s : string) : bool :=
  match s with
  | EmptyString => false
  | String c rest => Ascii.eqb c comma || has_comma rest
  end.

(** The effect of the compare page on its search parameters: a missing or
    empty [product_ids] leaves the selection as it is. *)
Definition selection_from_param (product_ids : option string)
    (selected : list string) : list string :=
  match product_ids with
  | None => selected
  | Some EmptyString => selected
  | Some s => split s
  end.

(** [FilterState] of the search filters; [null] prices are [None]. *)
Record FilterState : Type := mkFilterState {
  query : string;
  brands : list string;
  retailers : list string;
  minPrice : option Q;
  maxPrice : option Q
}.

(** The two uses of [updateFilter] under the toggles: [{...filters, brands}]
    and [{...filters, retailers}]. *)
Definition toggleBrand (filters : FilterState) (brand : string) : FilterState :=
  mkFilterState (query filters) (toggle (brands filters) brand)
    (retailers filters) (minPrice filters) (maxPrice filters).

Definition toggleRetailer (filters : FilterState) (retailer : string) : FilterState :=
  mkFilterState (query filters) (brands filters)
    (toggle (retailers filters) retailer) (minPrice filters) (maxPrice filters).

End Selection.

(** *** The search page: paging *)

Module SearchPage.

(** What the user does on the page.  [Next] carries the [total_pages] of the
    response on display when the button is pressed: the page reads
    [data.meta.total_pages] from the response it last fetched, which may
    change from one response to the next. *)
Inductive event : Type :=
| Previous
| Next (total_pages : Z)
| FilterChange.

(** The page after an event: [Math.max(1, p - 1)],
    [Math.min(data.meta.total_pages, p + 1)] and [setPage(1)]. *)
Definition step (page : Z) (e : event) : Z :=
  match e with
  | Previous => Z.max 1 (page - 1)
  | Next total_pages => Z.min total_pages (page + 1)
  | FilterChange => 1
  end.

Definition run (page : Z) (events : list event) : Z :=
  fold_left step events page.

(** The responses shown when Next was pressed all had between 1 and [bound]
    pages. *)
Definition totals_within (bound : Z) (events : list event) : Prop :=
  forall t, In (Next t) events -> (1 <= t <= bound)%Z.

End SearchPage.

(** *** The arbitrage page and its cards *)

Module ArbitrageCard.

(** The initial thresholds of the arbitrage page: [useState(10.0)] and
    [useState(5.0)]. *)
Definition initial_min_margin : Q := 10.
Definition initial_min_price_diff : Q := 5.

(** The classes of the margin badge. *)
Definition getProfitColor (margin : Q) : string :=
  if Qle_bool 30 margin then "text-green-600 bg-green-100"
  else if Qle_bool 20 margin then "text-blue-600 bg-blue-100"
  else if Qle_bool 10 margin then "text-yellow-600 bg-yellow-100"
  else "text-gray-600 bg-gray-100".

End ArbitrageCard.

(** *** The price chart *)

Module PriceChart.

(** The fields of a history point that the chart reads. *)
Record point : Type := mkPoint {
  date : string;
  site : string;
  price : Q
}.

Inductive value : Type :=
| VString (s : string)
| VNumber (n : Q).

(** A row of the chart: a JavaScript object, as the list of its own
    properties in order of creation. *)
Definition object : Type := list (string * value).

Fixpoint get (o : object) (k : string) : option value :=
  match o with
  | [] => None
  | (k', v) :: t => if String.eqb k' k then Some v else get t k
  end.

(** [o[k] = v] *)
Fixpoint set (o : object) (k : string) (v : value) : object :=
  match o with
  | [] => [(k, v)]
  | (k', v') :: t => if String.eqb k' k then (k', v) :: t else (k', v') :: set t k v
  end.

(** [d.date === point.date] *)
Definition same_date (pt : point) (d : object) : bool :=
  match get d "date" with
  | Some (VString s) => String.eqb s (date pt)
  | _ => false
  end.

(** [existing = acc.find(...)] followed by [existing[point.site] = point.price]:
    the first row of the date is updated in place; [None] when [find] returns
    [undefined]. *)
Fixpoint update_existing (acc : list object) (pt : point) : option (list object) :=
  match acc with
  | [] => None
  | d :: t =>
      if same_date pt d then Some (set d (site pt) (VNumber (price pt)) :: t)
      else match update_existing t pt with
           | Some t' => Some (d :: t')
           | None => None
           end
  end.

(** The object literal [{ date: point.date, [point.site]: point.price }] *)
Definition fresh (pt : point) : object :=
  set (set [] "date" (VString (date pt))) (site pt) (VNumber (price pt)).

(** The callback of [data.reduce]. *)
Definition add_point (acc : list object) (pt : point) : list object :=
  match update_existing acc pt with
  | Some acc' => acc'
  | None => acc ++ [fresh pt]
  end.

Definition chartData (data : list point) : list object :=
  fold_left add_point data [].

(** [Array.from(new Set(data.map((d) => d.site)))] *)
Definition sites (data : list point) : list string :=
  Sql.distinct String.eqb (map site data).

(** The site names under which a row keeps a price as a property of its own:
    any name but that of the [date] property and [__proto__]. *)
Definition series_name (s : string) : Prop :=
  s <> "date"%string /\ s <> "__proto__"%string.

(** The price of the last point of [data] for a date and a site. *)
Definition last_price (data : list point) (d s : string) : option Q :=
  match find (fun pt => String.eqb (date pt) d && String.eqb (site pt) s) (rev data) with
  | Some pt => Some (price pt)
  | None => None
  end.

(** The [date] property of a row. *)
Definition row_date (d : object) : option value := get d "date".

(** The row of the date of [pt], with the price of [pt] put under its site. *)
Definition updated (pt : point) (d : object) : object :=
  if same_date pt d then set d (site pt) (VNumber (price pt)) else d.

(** What the reduction keeps true of the rows built so far. *)
Definition chart_invariant (data : list point) (acc : list object) : Prop :=
  (forall row, In row acc -> exists d, row_date row = Some (VString d)) /\
  NoDup (map row_date acc) /\
  (forall row d s, In row acc -> row_date row = Some (VString d) ->
     s <> "date"%string ->
     get row s = option_map VNumber (last_price data d s)) /\
  (forall d, (exists row, In row acc /\ row_date row = Some (VString d)) <->
             (exists pt, In pt data /\ date pt = d)).

Definition sample : list point :=
  [ mkPoint "2024-01-01" "amazon" 100;
    mkPoint "2024-01-01" "walmart" 80;
    mkPoint "2024-01-02" "amazon" 95;
    mkPoint "2024-01-01" "amazon" 99 ].

End PriceChart.

(** ** Sample tables *)

Module Examples.

Definition day : Z := LatestPrices.usec_per_day.

(** The views are read on day 100. *)
Definition now : Z := (100 * day)%Z.

Definition observation (p s : string) (t : option string) (pr : option Q)
    (cur : option string) (at_ : Z) : Products.row :=
  Products.mk p s None t None pr cur None None None [] at_ None None None None None.

Definition usd : option string := Some "USD"%string.
Definition widget : option string := Some "Widget"%string.
Definition gadget : option string := Some "Gadget"%string.

(** Amazon observed three times, once before the window; Walmart once. *)
Definition repeated : list Products.row :=
  [ observation "P1" "amazon" widget (Some 50) usd (10 * day);
    observation "P1" "amazon" widget (Some 100) usd (80 * day);
    observation "P1" "walmart" widget (Some 80) usd (85 * day);
    observation "P1" "amazon" widget (Some 95) usd (90 * day) ].

Definition repeated_latest_amazon : LatestPrices.row :=
  LatestPrices.mk (observation "P1" "amazon" widget (Some 95) usd (90 * day)) 1.

(** P1 at 100 on Amazon and 80 on Walmart; P2 at 120 on Kohl's only. *)
Definition scenario : list Products.row :=
  [ observation "P1" "amazon" widget (Some 100) usd (90 * day);
    observation "P1" "walmart" widget (Some 80) usd (90 * day);
    observation "P2" "kohls" gadget (Some 120) usd (91 * day) ].

Definition scenario_latest : list LatestPrices.row :=
  LatestPrices.latest_prices now scenario.

Definition scenario_p1 : Arbitrage.row :=
  Arbitrage.mk "P1" widget (Some 80) (Some 100) (Some 20) (Some (2000 # 80)) 2
    (Some "walmart"%string) (Some "amazon"%string).

Definition scenario_p2 : Arbitrage.row :=
  Arbitrage.mk "P2" gadget (Some 120) (Some 120) (Some 0) (Some (0 # 120)) 1
    (Some "kohls"%string) (Some "kohls"%string).

(** A product offered for 0 by one retailer. *)
Definition free_offer : list Products.row :=
  [ observation "P1" "amazon" widget (Some 0) usd (90 * day);
    observation "P1" "walmart" widget (Some 10) usd (90 * day) ].

Definition free_offer_latest : list LatestPrices.row :=
  LatestPrices.latest_prices now free_offer.

(** Two products of equal margin (100 percent) and different spread. *)
Definition equal_margins : list Products.row :=
  [ observation "P1" "amazon" widget (Some 10) usd (90 * day);
    observation "P1" "walmart" widget (Some 20) usd (90 * day);
    observation "P2" "amazon" gadget (Some 20) usd (90 * day);
    observation "P2" "walmart" gadget (Some 40) usd (90 * day) ].

Definition equal_margins_latest : list LatestPrices.row :=
  LatestPrices.latest_prices now equal_margins.

Definition equal_margins_p1 : Arbitrage.row :=
  Arbitrage.mk "P1" widget (Some 10) (Some 20) (Some 10) (Some (1000 # 10)) 2
    (Some "amazon"%string) (Some "walmart"%string).

Definition equal_margins_p2 : Arbitrage.row :=
  Arbitrage.mk "P2" gadget (Some 20) (Some 40) (Some 20) (Some (2000 # 20)) 2
    (Some "amazon"%string) (Some "walmart"%string).

(** Two retailers tied at the least price and two at the greatest. *)
Definition tied_prices : list Products.row :=
  [ observation "P1" "walmart" widget (Some 10) usd (90 * day);
    observation "P1" "amazon" widget (Some 10) usd (90 * day);
    observation "P1" "target" widget (Some 20) usd (90 * day);
    observation "P1" "kohls" widget (Some 20) usd (90 * day) ].

Definition tied_prices_latest : list LatestPrices.row :=
  LatestPrices.latest_prices now tied_prices.

Definition tied_prices_p1 : Arbitrage.row :=
  Arbitrage.mk "P1" widget (Some 10) (Some 20) (Some 10) (Some (1000 # 10)) 4
    (Some "walmart"%string) (Some "target"%string).

(** One product under two titles, another under one. *)
Definition two_titles : list Products.row :=
  [ observation "P1" "amazon" (Some "Widget A"%string) (Some 100) usd (90 * day);
    observation "P1" "walmart" (Some "Widget B"%string) (Some 80) usd (90 * day);
    observation "P2" "amazon" gadget (Some 10) usd (90 * day);
    observation "P2" "walmart" gadget (Some 20) usd (90 * day) ].

Definition two_titles_latest : list LatestPrices.row :=
  LatestPrices.latest_prices now two_titles.

Definition two_titles_p2 : Arbitrage.row :=
  Arbitrage.mk "P2" gadget (Some 10) (Some 20) (Some 10) (Some (1000 # 10)) 2
    (Some "amazon"%string) (Some "walmart"%string).

(** One retailer, one day: first quoted in USD, later in EUR. *)
Definition two_currencies : list Products.row :=
  [ observation "P1" "amazon" widget (Some 100) usd (95 * day + 10);
    observation "P1" "amazon" widget (Some 90) (Some "EUR"%string) (95 * day + 20) ].

Definition two_currencies_point : PriceHistory.row :=
  PriceHistory.mk "P1" 95 "amazon" (Some (190 # 2)) (Some 90) (Some 100) usd 2.

Definition acme : ProductBrands.row :=
  ProductBrands.mk (Some "Acme"%string) 2 2 (Some (30 # 3)) (Some 10) (Some 10).

End Examples.

(** ** Properties of the relational operators *)

Module SqlFacts.

Import Sql.

Section Distinct.
Variable K : Type.
Variable eqb : K -> K -> bool.
Hypothesis eqb_eq : forall a b, eqb a b = true <-> a = b.

Lemma eqb_refl a : eqb a a = true.
Proof. now apply eqb_eq. Qed.

Lemma eqb_false a b : eqb a b = false <-> a <> b.
Proof.
  split.
  - intros E H. apply eqb_eq in H. congruence.
  - intros H. destruct (eqb a b) eqn:E; [apply eqb_eq in E; contradiction | reflexivity].
Qed.

Lemma in_distinct l k : In k (distinct eqb l) <-> In k l.
Proof.
  induction l as [|a t IH]; simpl; [tauto|].
  rewrite filter_In, IH, negb_true_iff, eqb_false. split.
  - intros [H|[H _]]; auto.
  - intros [H|H]; auto.
    destruct (eqb a k) eqn:E.
    + left. now apply eqb_eq.
    + right. split; [assumption | now apply eqb_false].
Qed.

Lemma NoDup_filter (A : Type) (p : A -> bool) (l : list A) :
  NoDup l -> NoDup (filter p l).
Proof.
  induction 1 as [|a t Hn Hd IH]; simpl; [constructor|].
  destruct (p a); [constructor|]; auto.
  rewrite filter_In. tauto.
Qed.

Lemma NoDup_distinct l : NoDup (distinct eqb l).
Proof.
  induction l as [|a t IH]; simpl; constructor.
  - rewrite filter_In, negb_true_iff, eqb_false. intros [_ H]. now apply H.
  - now apply NoDup_filter.
Qed.
End Distinct.

Arguments in_distinct {K eqb} eqb_eq l k.
Arguments NoDup_distinct {K eqb} eqb_eq l.
Arguments NoDup_filter {A} p l _.

Section GroupBy.
Variables A K : Type.
Variable key : A -> K.
Variable eqb : K -> K -> bool.
Hypothesis eqb_eq : forall a b, eqb a b = true <-> a = b.

Lemma in_group_rows k rows r :
  In r (group_rows key eqb k rows) <-> In r rows /\ key r = k.
Proof. unfold group_rows. now rewrite filter_In, eqb_eq. Qed.

Lemma in_group_by rows k g :
  In (k, g) (group_by key eqb rows) <->
  g = group_rows key eqb k rows /\ exists r, In r rows /\ key r = k.
Proof.
  unfold group_by. rewrite in_map_iff. split.
  - intros (k' & E & Hk). inversion E; subst. split; [reflexivity|].
    apply (proj1 (in_distinct eqb_eq _ _)) in Hk. apply in_map_iff in Hk.
    destruct Hk as (r & Hr & Hin). now exists r.
  - intros (-> & r & Hin & Hr). exists k. split; [reflexivity|].
    apply (proj2 (in_distinct eqb_eq _ _)). apply in_map_iff. now exists r.
Qed.

Lemma group_by_keys rows :
  map fst (group_by key eqb rows) = distinct eqb (map key rows).
Proof.
  unfold group_by. rewrite map_map. simpl. apply map_id.
Qed.

Lemma NoDup_group_keys rows : NoDup (map fst (group_by key eqb rows)).
Proof. rewrite group_by_keys. now apply (NoDup_distinct eqb_eq). Qed.
End GroupBy.

Arguments in_group_rows {A K} key {eqb} eqb_eq k rows r.
Arguments in_group_by {A K} key {eqb} eqb_eq rows k g.
Arguments group_by_keys {A K} key eqb rows.
Arguments NoDup_group_keys {A K} key {eqb} eqb_eq rows.

Section OrderBy.
Variable A : Type.
(** [leb x y]: the ORDER BY clause allows [x] to come before [y]. *)
Variable leb : A -> A -> bool.

Lemma insert_perm x l : Permutation (x :: l) (insert leb x l).
Proof.
  induction l as [|y t IH]; simpl; [reflexivity|].
  destruct (leb x y); [reflexivity|].
  rewrite perm_swap. now constructor.
Qed.

Lemma order_by_perm l : Permutation l (order_by leb l).
Proof.
  induction l as [|x t IH]; simpl; [constructor|].
  rewrite <- insert_perm. now constructor.
Qed.

Lemma in_order_by l x : In x (order_by leb l) <-> In x l.
Proof.
  split; apply Permutation_in;
    [apply Permutation_sym|]; apply order_by_perm.
Qed.

Lemma order_by_length l : List.length (order_by leb l) = List.length l.
Proof. symmetry. apply Permutation_length, order_by_perm. Qed.

Hypothesis leb_total : forall x y, leb x y = true \/ leb y x = true.
Hypothesis leb_trans : forall x y z,
  leb x y = true -> leb y z = true -> leb x z = true.

Lemma insert_sorted x l :
  StronglySorted (fun a b => leb a b = true) l ->
  StronglySorted (fun a b => leb a b = true) (insert leb x l).
Proof.
  induction 1 as [|y t Hs IH Hall]; simpl.
  - repeat constructor.
  - destruct (leb x y) eqn:E.
    + constructor; [now constructor|].
      constructor; [assumption|].
      rewrite Forall_forall in *. intros z Hz. eauto.
    + constructor; [assumption|].
      rewrite Forall_forall in *. intros z Hz.
      apply (Permutation_in _ (Permutation_sym (insert_perm x t))) in Hz.
      destruct Hz as [<-|Hz]; [|auto].
      destruct (leb_total x y); congruence.
Qed.

Lemma order_by_sorted l :
  StronglySorted (fun a b => leb a b = true) (order_by leb l).
Proof.
  induction l as [|x t IH]; simpl; [constructor | now apply insert_sorted].
Qed.

(** The first row of a sorted table may come before every row of it. *)
Lemma order_by_head l x t :
  order_by leb l = x :: t -> forall y, In y l -> leb x y = true.
Proof.
  intros E y Hy. pose proof (order_by_sorted l) as Hs. rewrite E in Hs.
  apply in_order_by in Hy. rewrite E in Hy.
  inversion Hs as [|? ? _ Hall]; subst. destruct Hy as [<-|Hy].
  - destruct (leb_total x x); assumption.
  - rewrite Forall_forall in Hall. auto.
Qed.
End OrderBy.

Arguments order_by_perm {A} leb l.
Arguments in_order_by {A} leb l x.
Arguments order_by_length {A} leb l.
Arguments order_by_sorted {A leb} leb_total leb_trans l.
Arguments order_by_head {A leb} leb_total leb_trans l x t _ y _.

Section Aggregates.
Variable A : Type.
Variable leb : A -> A -> bool.
Hypothesis leb_total : forall x y, leb x y = true \/ leb y x = true.
Hypothesis leb_trans : forall x y z,
  leb x y = true -> leb y z = true -> leb x z = true.

Lemma leb_refl x : leb x x = true.
Proof. destruct (leb_total x x); assumption. Qed.

Lemma in_non_null (l : list (option A)) a : In a (non_null l) <-> In (Some a) l.
Proof.
  induction l as [|[x|] t IH]; simpl; [tauto| |].
  - rewrite IH. split; intros [H|H]; auto; left; congruence.
  - rewrite IH. split; [auto|]. intros [H|H]; [discriminate|assumption].
Qed.

Lemma fold_least t : forall a,
  (fold_left (least leb) t a = a \/ In (fold_left (least leb) t a) t) /\
  leb (fold_left (least leb) t a) a = true /\
  forall y, In y t -> leb (fold_left (least leb) t a) y = true.
Proof.
  induction t as [|x t IH]; intros a; simpl.
  - split; [now left|]. split; [apply leb_refl | tauto].
  - destruct (IH (least leb a x)) as (Hin & Hle & Hall).
    assert (Ha : leb (least leb a x) a = true /\ leb (least leb a x) x = true).
    { unfold least. destruct (leb a x) eqn:E.
      - split; [apply leb_refl | assumption].
      - split; [|apply leb_refl]. destruct (leb_total a x); congruence. }
    destruct Ha as [Ha Hx]. split; [|split].
    + destruct Hin as [Hin|Hin]; [|now right; right].
      rewrite Hin. unfold least. destruct (leb a x); auto.
    + eauto.
    + intros y [<-|Hy]; eauto.
Qed.

Lemma fold_greatest t : forall a,
  (fold_left (greatest leb) t a = a \/ In (fold_left (greatest leb) t a) t) /\
  leb a (fold_left (greatest leb) t a) = true /\
  forall y, In y t -> leb y (fold_left (greatest leb) t a) = true.
Proof.
  induction t as [|x t IH]; intros a; simpl.
  - split; [now left|]. split; [apply leb_refl | tauto].
  - destruct (IH (greatest leb a x)) as (Hin & Hle & Hall).
    assert (Ha : leb a (greatest leb a x) = true /\ leb x (greatest leb a x) = true).
    { unfold greatest. destruct (leb a x) eqn:E.
      - split; [assumption | apply leb_refl].
      - split; [apply leb_refl|]. destruct (leb_total a x); congruence. }
    destruct Ha as [Ha Hx]. split; [|split].
    + destruct Hin as [Hin|Hin]; [|now right; right].
      rewrite Hin. unfold greatest. destruct (leb a x); auto.
    + eauto.
    + intros y [<-|Hy]; eauto.
Qed.

(** [MIN] of a column with a non-NULL value is one of its values, below
    all of them. *)
Lemma agg_min_spec (l : list (option A)) a :
  In (Some a) l ->
  exists m, agg_min leb l = Some m /\ In (Some m) l /\
            forall y, In (Some y) l -> leb m y = true.
Proof.
  intros Ha. apply in_non_null in Ha. unfold agg_min.
  assert (Hl : forall y, In (Some y) l <-> In y (non_null l))
    by (intros; symmetry; apply in_non_null).
  destruct (non_null l) as [|x t]; [destruct Ha|].
  destruct (fold_least t x) as (Hin & Hle & Hall).
  eexists. split; [reflexivity|]. split.
  - apply Hl. destruct Hin as [->|Hin]; [now left | now right].
  - intros y Hy. apply Hl in Hy. destruct Hy as [<-|Hy]; auto.
Qed.

Lemma agg_max_spec (l : list (option A)) a :
  In (Some a) l ->
  exists m, agg_max leb l = Some m /\ In (Some m) l /\
            forall y, In (Some y) l -> leb y m = true.
Proof.
  intros Ha. apply in_non_null in Ha. unfold agg_max.
  assert (Hl : forall y, In (Some y) l <-> In y (non_null l))
    by (intros; symmetry; apply in_non_null).
  destruct (non_null l) as [|x t]; [destruct Ha|].
  destruct (fold_greatest t x) as (Hin & Hle & Hall).
  eexists. split; [reflexivity|]. split.
  - apply Hl. destruct Hin as [->|Hin]; [now left | now right].
  - intros y Hy. apply Hl in Hy. destruct Hy as [<-|Hy]; auto.
Qed.
End Aggregates.

Arguments agg_min_spec {A leb} leb_total leb_trans l a _.
Arguments agg_max_spec {A leb} leb_total leb_trans l a _.

Lemma Qle_bool_total x y : Qle_bool x y = true \/ Qle_bool y x = true.
Proof.
rewrite !Qle_bool_iff. destruct (Qlt_le_dec x y) as [H|H]; [left|right]; auto.
now apply Qlt_le_weak.
Qed.

Lemma Qle_bool_trans x y z :
Qle_bool x y = true -> Qle_bool y z = true -> Qle_bool x z = true.
Proof. rewrite !Qle_bool_iff. apply Qle_trans. Qed.

Section Traverse.
Variables A B : Type.
Variable f : A -> result B.

Lemma traverse_ok l bs :
  traverse f l = Ok bs ->
  forall b, In b bs <-> exists a, In a l /\ f a = Ok b.
Proof.
  revert bs. induction l as [|a t IH]; simpl; intros bs H b.
  - inversion H; subst. simpl. split; [tauto | intros (? & [] & _)].
  - destruct (f a) as [b0|] eqn:Ea; [|discriminate].
    destruct (traverse f t) as [bs0|]; [|discriminate].
    inversion H; subst. simpl. rewrite (IH bs0 eq_refl). split.
    + intros [<-|(a' & Ha' & E)]; eauto.
    + intros (a' & [<-|Ha'] & E); [left; congruence | right; eauto].
Qed.

Lemma traverse_error l a :
  In a l -> f a = DivisionByZero -> traverse f l = DivisionByZero.
Proof.
  induction l as [|x t IH]; simpl; [tauto|].
  intros [->|Ha] E.
  - now rewrite E.
  - rewrite (IH Ha E). now destruct (f x).
Qed.
End Traverse.

Arguments traverse_ok {A B} f l bs _ b.
Arguments traverse_error {A B} f l a _ _.

End SqlFacts.

Lemma option_string_eqb_eq a b : option_string_eqb a b = true <-> a = b.
Proof.
  destruct a as [x|], b as [y|]; simpl; try (split; congruence).
  rewrite String.eqb_eq. split; congruence.
Qed.

(** ** Properties of [latest_prices] *)

Module LatestPricesFacts.

Import Sql SqlFacts LatestPrices.

Lemma latest_key_eqb_eq a b : key_eqb a b = true <-> a = b.
Proof.
  destruct a as [a1 a2], b as [b1 b2]. unfold key_eqb. simpl.
  rewrite andb_true_iff, !String.eqb_eq. split; [intros [-> ->]|intros [= -> ->]]; auto.
Qed.

Lemma scraped_at_desc_total a b :
  scraped_at_desc a b = true \/ scraped_at_desc b a = true.
Proof. unfold scraped_at_desc. rewrite !Z.leb_le. lia. Qed.

Lemma scraped_at_desc_trans a b c :
  scraped_at_desc a b = true -> scraped_at_desc b c = true ->
  scraped_at_desc a c = true.
Proof. unfold scraped_at_desc. rewrite !Z.leb_le. lia. Qed.

Lemma qualify_above n l :
  (1 < n)%Z -> filter (fun l => (rn l =? 1)%Z) (number_rows n l) = [].
Proof.
  revert n. induction l as [|r t IH]; intros n Hn; simpl; [reflexivity|].
  destruct (Z.eqb_spec n 1); [lia|]. apply IH. lia.
Qed.

Lemma qualify_row_number partition :
  filter (fun l => (rn l =? 1)%Z) (row_number partition) = top partition.
Proof.
  unfold row_number, top.
  destruct (Sql.order_by scraped_at_desc partition) as [|r t]; simpl; [reflexivity|].
  now rewrite qualify_above.
Qed.

Lemma filter_flat_map (A B : Type) (p : B -> bool) (f : A -> list B) l :
  filter p (flat_map f l) = flat_map (fun x => filter p (f x)) l.
Proof.
  induction l as [|a t IH]; simpl; [reflexivity|].
  now rewrite filter_app, IH.
Qed.

Lemma latest_prices_top now products :
  latest_prices now products =
  flat_map (fun g => top (snd g))
           (Sql.group_by key key_eqb (filter (in_window now) products)).
Proof.
  unfold latest_prices. rewrite filter_flat_map.
  apply flat_map_ext. intros g. apply qualify_row_number.
Qed.

Lemma in_top partition l :
  In l (top partition) ->
  rn l = 1%Z /\ In (obs l) partition /\
  forall o, In o partition ->
    (Products.scraped_at o <= Products.scraped_at (obs l))%Z.
Proof.
  unfold top.
  destruct (Sql.order_by scraped_at_desc partition) as [|r t] eqn:E; simpl; [tauto|].
  intros [<-|[]]. simpl. split; [reflexivity|]. split.
  - apply (SqlFacts.in_order_by scraped_at_desc). rewrite E. now left.
  - intros o Ho. apply Z.leb_le.
    apply (SqlFacts.order_by_head scraped_at_desc_total scraped_at_desc_trans _ _ _ E _ Ho).
Qed.

Lemma top_nonempty partition r :
  In r partition -> exists l, top partition = [l].
Proof.
  intros Hr. unfold top.
  destruct (Sql.order_by scraped_at_desc partition) as [|x t] eqn:E.
  - apply (SqlFacts.in_order_by scraped_at_desc) in Hr. rewrite E in Hr. destruct Hr.
  - eauto.
Qed.

Lemma in_latest_prices now products l :
  In l (latest_prices now products) <->
  exists k, In l (top (Sql.group_rows key key_eqb k (filter (in_window now) products)))
            /\ exists r, In r (filter (in_window now) products) /\ key r = k.
Proof.
  rewrite latest_prices_top, in_flat_map. split.
  - intros ([k g] & Hg & Hl). simpl in Hl.
    apply (SqlFacts.in_group_by key latest_key_eqb_eq) in Hg. destruct Hg as [-> Hex]. eauto.
  - intros (k & Hl & Hex). eexists (k, _). split; [|exact Hl].
    apply (SqlFacts.in_group_by key latest_key_eqb_eq). auto.
Qed.

Lemma latest_prices_keys now products :
  map row_key (latest_prices now products) =
  Sql.distinct key_eqb (map key (filter (in_window now) products)).
Proof.
  rewrite latest_prices_top, <- (SqlFacts.group_by_keys key key_eqb).
  assert (H : forall k g,
             In (k, g) (Sql.group_by key key_eqb (filter (in_window now) products)) ->
             map row_key (top g) = [k]).
  { intros k g Hg. apply (SqlFacts.in_group_by key latest_key_eqb_eq) in Hg.
    destruct Hg as [-> (r & Hr & Hk)].
    destruct (top_nonempty (Sql.group_rows key key_eqb k (filter (in_window now) products)) r)
      as [l Hl].
    - apply (SqlFacts.in_group_rows key latest_key_eqb_eq). auto.
    - rewrite Hl. simpl. f_equal.
      assert (Hin : In l (top (Sql.group_rows key key_eqb k (filter (in_window now) products))))
        by (rewrite Hl; now left).
      apply in_top in Hin. destruct Hin as (_ & Hin & _).
      apply (SqlFacts.in_group_rows key latest_key_eqb_eq) in Hin. apply Hin. }
  induction (Sql.group_by key key_eqb (filter (in_window now) products)) as [|[k g] t IH];
    simpl; [reflexivity|].
  rewrite map_app, (H k g) by now left. simpl. f_equal.
  apply IH. intros k' g' Hg'. apply H. now right.
Qed.

(** The view holds one row per (product_id, site). *)
Lemma latest_prices_keys_unique now products :
  keys_unique (latest_prices now products).
Proof.
  unfold keys_unique. rewrite latest_prices_keys.
  apply (SqlFacts.NoDup_distinct latest_key_eqb_eq).
Qed.

(** C1: every row of [latest_prices] is an observation of the source table
    scraped within the 30 days before now whose scraped_at is maximal among
    the in-window observations of the same product_id and site; no older
    observation appears; no two rows of the view share both product_id and
    site, and every product_id and site with an in-window observation has
    its row. *)
Theorem latest_prices_max_in_window (now : Z) (products : list Products.row) :
  (forall l, In l (latest_prices now products) ->
     In (obs l) products /\
     (timestamp_sub_days now 30 <= Products.scraped_at (obs l))%Z /\
     forall o, In o products ->
       Products.product_id o = Products.product_id (obs l) ->
       Products.site o = Products.site (obs l) ->
       (timestamp_sub_days now 30 <= Products.scraped_at o)%Z ->
       (Products.scraped_at o <= Products.scraped_at (obs l))%Z)
  /\ NoDup (map (fun l => (Products.product_id (obs l), Products.site (obs l)))
              (latest_prices now products))
  /\ (forall o, In o products ->
        (timestamp_sub_days now 30 <= Products.scraped_at o)%Z ->
        exists l, In l (latest_prices now products) /\
                  Products.product_id (obs l) = Products.product_id o /\
                  Products.site (obs l) = Products.site o).
Proof.
  split; [|split].
  - intros l Hl. apply in_latest_prices in Hl.
    destruct Hl as (k & Hl & _). apply in_top in Hl.
    destruct Hl as (_ & Hin & Hmax).
    apply (in_group_rows key latest_key_eqb_eq) in Hin. destruct Hin as [Hin Hk].
    apply filter_In in Hin. destruct Hin as [Hin Hw].
    unfold in_window in Hw. apply Z.leb_le in Hw.
    repeat split; try assumption.
    intros o Ho Hpid Hsite Hwo. apply Hmax.
    apply (in_group_rows key latest_key_eqb_eq). split.
    + apply filter_In. split; [assumption|]. now apply Z.leb_le.
    + rewrite <- Hk. unfold key. now rewrite Hpid, Hsite.
  - exact (latest_prices_keys_unique now products).
  - intros o Ho Hw.
    assert (Hf : In o (filter (in_window now) products)).
    { apply filter_In. split; [assumption|]. now apply Z.leb_le. }
    assert (Hk : In (key o) (map row_key (latest_prices now products))).
    { rewrite latest_prices_keys. apply (in_distinct latest_key_eqb_eq).
      now apply in_map. }
    apply in_map_iff in Hk. destruct Hk as (l & Hk & Hl).
    exists l. split; [assumption|].
    unfold row_key, key in Hk. injection Hk as H1 H2. auto.
Qed.

(** *** The view on the sample tables *)

Lemma latest_prices_max_in_window_witness :
  In Examples.repeated_latest_amazon
     (latest_prices Examples.now Examples.repeated) /\
  forall o, In o Examples.repeated ->
    Products.product_id o = "P1"%string ->
    Products.site o = "amazon"%string ->
    (timestamp_sub_days Examples.now 30 <= Products.scraped_at o)%Z ->
    (Products.scraped_at o <= 90 * Examples.day)%Z.
Proof.
  assert (H : In Examples.repeated_latest_amazon
                 (latest_prices Examples.now Examples.repeated))
    by (vm_compute; left; reflexivity).
  split; [exact H|].
  exact (proj2 (proj2 (proj1 (latest_prices_max_in_window
                                Examples.now Examples.repeated) _ H))).
Defined.

End LatestPricesFacts.

(** ** Properties of [arbitrage_opportunities] *)

Module ArbitrageFacts.

Import Sql SqlFacts Arbitrage.

(** *** Groups of [price_comparison] *)

Lemma arbitrage_key_eqb_eq a b : key_eqb a b = true <-> a = b.
Proof.
  destruct a as [a1 a2], b as [b1 b2]. unfold key_eqb. simpl.
  rewrite andb_true_iff, String.eqb_eq, option_string_eqb_eq.
  split; [intros [-> ->]|intros [= -> ->]]; auto.
Qed.

Lemma in_group_of latest k l :
  In l (group_of latest k) <-> In l latest /\ priced l = true /\ key l = k.
Proof.
  unfold group_of. rewrite (in_group_rows key arbitrage_key_eqb_eq), filter_In. tauto.
Qed.

Lemma priced_price l : priced l = true -> exists p, price l = Some p.
Proof. unfold priced. destruct (price l) as [p|]; [eauto | discriminate]. Qed.

(** What the SELECT list computes on a group that has a row. *)
Lemma select_group_ok k rows o l :
  In l rows -> (forall l', In l' rows -> priced l' = true) ->
  select_group (k, rows) = Ok o ->
  exists mn mx,
    agg_min Qle_bool (map price rows) = Some mn /\
    agg_max Qle_bool (map price rows) = Some mx /\
    ~ mn == 0 /\ mn <= mx /\
    o = mk (fst k) (snd k) (Some mn) (Some mx) (Some (mx - mn))
           (Some ((mx - mn) / mn * 100))
           (count_distinct String.eqb (map site rows))
           (first_site price_asc rows) (first_site price_desc rows).
Proof.
  intros Hl Hp. destruct (priced_price l (Hp l Hl)) as [p Hpl].
  assert (Hin : In (Some p) (map price rows))
    by (rewrite <- Hpl; now apply in_map).
  destruct (agg_min_spec Qle_bool_total Qle_bool_trans _ _ Hin) as (mn & Emn & Hmn & Hle).
  destruct (agg_max_spec Qle_bool_total Qle_bool_trans _ _ Hin) as (mx & Emx & Hmx & Hge).
  unfold select_group. simpl. rewrite Emn, Emx. simpl.
  destruct (Qeq_bool mn 0) eqn:E0; [discriminate|].
  intros [= <-]. exists mn, mx. repeat split; try reflexivity.
  - now apply Qeq_bool_neq.
  - apply Qle_bool_iff. now apply Hle.
Qed.

(** A group whose least price is zero fails the query. *)
Lemma select_group_zero k rows mn :
  agg_min Qle_bool (map price rows) = Some mn -> mn == 0 ->
  select_group (k, rows) = DivisionByZero.
Proof.
  intros Emn H0. unfold select_group. simpl. rewrite Emn.
  destruct (agg_max Qle_bool (map price rows)) as [mx|] eqn:Emx.
  - simpl. now rewrite (Qeq_eq_bool _ _ H0).
  - exfalso. unfold agg_min, agg_max in *.
    destruct (non_null (map price rows)); discriminate.
Qed.

Lemma in_groups latest k g :
  In (k, g) (group_by key key_eqb (filter priced latest)) <->
  g = group_of latest k /\ exists l, In l (group_of latest k).
Proof.
  rewrite (in_group_by key arbitrage_key_eqb_eq). unfold group_of. split.
  - intros [-> (l & Hl & Hk)]. split; [reflexivity|]. exists l.
    apply (in_group_rows key arbitrage_key_eqb_eq). auto.
  - intros [-> (l & Hl)]. split; [reflexivity|]. exists l.
    now apply (in_group_rows key arbitrage_key_eqb_eq) in Hl.
Qed.

(** The rows of the query: the groups that pass the HAVING clause. *)
Lemma in_arbitrage_query m d latest rows o :
  arbitrage_query m d latest = Ok rows ->
  (In o rows <->
   having m d o = true /\
   exists k l, In l (group_of latest k) /\
               select_group (k, group_of latest k) = Ok o).
Proof.
  unfold arbitrage_query, price_comparison.
  destruct (traverse select_group _) as [all|] eqn:E; [|discriminate].
  intros [= <-]. rewrite (in_order_by margin_desc), filter_In.
  rewrite (traverse_ok _ _ _ E). split.
  - intros [([k g] & Hg & Hs) Hh]. split; [assumption|].
    apply in_groups in Hg. destruct Hg as [-> [l Hl]]. eauto.
  - intros [Hh (k & l & Hl & Hs)]. split; [|assumption].
    exists (k, group_of latest k). split; [|assumption].
    apply in_groups. eauto.
Qed.

(** Every row of the query, spelled out. *)
Lemma arbitrage_row m d latest rows o :
  arbitrage_query m d latest = Ok rows -> In o rows ->
  let g := group_of latest (product_id o, title o) in
  exists mn mx,
    (exists l, In l g) /\
    agg_min Qle_bool (map price g) = Some mn /\
    agg_max Qle_bool (map price g) = Some mx /\
    ~ mn == 0 /\ mn <= mx /\
    m <= (mx - mn) / mn * 100 /\ d <= mx - mn /\
    o = mk (product_id o) (title o) (Some mn) (Some mx) (Some (mx - mn))
           (Some ((mx - mn) / mn * 100))
           (count_distinct String.eqb (map site g))
           (first_site price_asc g) (first_site price_desc g).
Proof.
  intros Hq Ho. apply (in_arbitrage_query _ _ _ _ _ Hq) in Ho.
  destruct Ho as [Hh (k & l & Hl & Hs)].
  destruct (select_group_ok k _ o l Hl) as (mn & mx & Emn & Emx & Hnz & Hle & Eo);
    [intros l' Hl'; now apply in_group_of in Hl' | assumption |].
  assert (Ek : k = (product_id o, title o))
    by (rewrite Eo; simpl; now destruct k).
  rewrite <- Ek. simpl. exists mn, mx.
  unfold having in Hh. rewrite Eo in Hh. simpl in Hh.
  apply andb_true_iff in Hh. rewrite !Qle_bool_iff in Hh.
  destruct Hh as [Hm Hd]. repeat split; try assumption.
  - now exists l.
  - rewrite Eo at 1. rewrite Eo. simpl. destruct k. reflexivity.
Qed.

(** *** Thresholds *)

(** The HAVING clause is TRUE only on non-NULL columns above the literals. *)
Lemma having_columns (m d : Q) (o : row) :
  having m d o = true ->
  exists margin diff,
    profit_margin_pct o = Some margin /\ price_diff o = Some diff /\
    m <= margin /\ d <= diff.
Proof.
  unfold having, ge. intros Hh.
  destruct (profit_margin_pct o) as [margin|]; [|discriminate].
  destruct (price_diff o) as [diff|]; [|rewrite andb_false_r in Hh; discriminate].
  apply andb_true_iff in Hh. rewrite !Qle_bool_iff in Hh.
  exists margin, diff. tauto.
Qed.

(** C3: every row returned by the query passes both thresholds at once: its
    margin is at least [min_margin_pct] and its price difference is at least
    [min_price_diff] (5 and 1.0 in the view). *)
Theorem arbitrage_both_thresholds (m d : Q) (latest : list LatestPrices.row)
    (rows : list row) (o : row) :
  arbitrage_query m d latest = Ok rows -> In o rows ->
  exists margin diff,
    profit_margin_pct o = Some margin /\ price_diff o = Some diff /\
    m <= margin /\ d <= diff.
Proof.
  intros Hq Ho. apply (in_arbitrage_query _ _ _ _ _ Hq) in Ho.
  apply having_columns. tauto.
Qed.

Lemma filter_length_le (A : Type) (p q : A -> bool) (l : list A) :
  (forall x, p x = true -> q x = true) ->
  (List.length (filter p l) <= List.length (filter q l))%nat.
Proof.
  intros H. induction l as [|a t IH]; simpl; [lia|].
  destruct (p a) eqn:E.
  - rewrite (H a E). simpl. lia.
  - destruct (q a); simpl; lia.
Qed.

(** C7: with the input and [min_price_diff] fixed, raising [min_margin_pct]
    never increases the number of opportunities returned; the query fails
    under one threshold exactly when it fails under the other. *)
Theorem arbitrage_count_antitone (m1 m2 d : Q) (latest : list LatestPrices.row) :
  m1 <= m2 ->
  (result_count (arbitrage_query m2 d latest)
   <= result_count (arbitrage_query m1 d latest))%nat /\
  (arbitrage_query m2 d latest = DivisionByZero <->
   arbitrage_query m1 d latest = DivisionByZero).
Proof.
  intros Hm. unfold arbitrage_query, price_comparison.
  destruct (traverse select_group _) as [all|]; simpl; [|split; [lia | tauto]].
  split; [|split; discriminate].
  rewrite !order_by_length. apply filter_length_le.
  intros o. unfold having, ge.
  destruct (profit_margin_pct o) as [margin|]; [|discriminate].
  rewrite !andb_true_iff, !Qle_bool_iff. intros [H1 H2]. split; [|assumption].
  now apply Qle_trans with m2.
Qed.

(** *** Division by zero *)

(** C2 (as the query behaves): under a positive margin threshold (5 in the
    view) every returned row has a positive min_price, so no returned margin
    comes from a zero or negative divisor; and a group of non-negative
    prices whose least price is zero is not skipped: it fails the query
    with the division-by-zero error. *)
Theorem arbitrage_min_price_positive (m d : Q) (latest : list LatestPrices.row) :
  0 < m ->
  (forall rows o, arbitrage_query m d latest = Ok rows -> In o rows ->
     exists mn, min_price o = Some mn /\ 0 < mn) /\
  (forall l p, In l latest -> price l = Some p -> p == 0 ->
     (forall l' p', In l' latest -> key l' = key l -> price l' = Some p' -> 0 <= p') ->
     arbitrage_query m d latest = DivisionByZero).
Proof.
  intros Hm. split.
  - intros rows o Hq Ho.
    destruct (arbitrage_row _ _ _ _ _ Hq Ho)
      as (mn & mx & _ & _ & _ & Hnz & Hle & Hmar & _ & Eo).
    exists mn. split; [rewrite Eo; reflexivity|].
    destruct (Qlt_le_dec 0 mn) as [Hpos|Hneg]; [assumption|exfalso].
    assert (Hlt : mn < 0).
    { apply Qle_lteq in Hneg. destruct Hneg as [H|H]; [assumption | contradiction]. }
    assert (E : (mx - mn) / mn * 100 * mn == (mx - mn) * 100) by (field; assumption).
    assert (H1 : 0 < (mx - mn) / mn * 100) by (eapply Qlt_le_trans; eauto).
    nra.
  - intros l p Hl Hp H0 Hall.
    assert (Hg : In l (group_of latest (key l))).
    { apply in_group_of. repeat split; [assumption|]. unfold priced. now rewrite Hp. }
    assert (Hin : In (Some p) (map price (group_of latest (key l))))
      by (rewrite <- Hp; now apply in_map).
    destruct (agg_min_spec Qle_bool_total Qle_bool_trans _ _ Hin) as (mn & Emn & Hmn & Hle).
    assert (Hz : mn == 0).
    { apply Qle_antisym.
      - rewrite <- H0. apply Qle_bool_iff. now apply Hle.
      - apply in_map_iff in Hmn. destruct Hmn as (l' & Hp' & Hl').
        apply in_group_of in Hl'. destruct Hl' as (Hl' & _ & Hk).
        now apply (Hall l' mn). }
    unfold arbitrage_query, price_comparison.
    rewrite (traverse_error select_group _ (key l, group_of latest (key l))).
    + reflexivity.
    + apply in_groups. eauto.
    + now apply select_group_zero with mn.
Qed.

(** *** Order of the rows and choice of the retailers *)

Lemma nulls_first_total (a b : option Q) :
  nulls_first Qle_bool a b = true \/ nulls_first Qle_bool b a = true.
Proof.
  destruct a as [x|], b as [y|]; simpl; auto. apply Qle_bool_total.
Qed.

Lemma nulls_first_trans (a b c : option Q) :
  nulls_first Qle_bool a b = true -> nulls_first Qle_bool b c = true ->
  nulls_first Qle_bool a c = true.
Proof.
  destruct a as [x|], b as [y|], c as [z|]; simpl; try congruence.
  apply Qle_bool_trans.
Qed.

Lemma StronglySorted_impl_in (A : Type) (R R' : A -> A -> Prop) (l : list A) :
  (forall a b, In a l -> In b l -> R a b -> R' a b) ->
  StronglySorted R l -> StronglySorted R' l.
Proof.
  intros H Hs. induction Hs as [|a t Hs IH Hall]; constructor.
  - apply IH. intros x y Hx Hy. apply H; now right.
  - rewrite Forall_forall in *. intros x Hx.
    apply H; [now left | now right | auto].
Qed.

(** C5 (as the query behaves): the rows come sorted by profit_margin_pct
    descending; the ORDER BY clause has no further key, so rows of equal
    margin are in no determined order. *)
Theorem arbitrage_sorted_by_margin (m d : Q) (latest : list LatestPrices.row)
    (rows : list row) :
  arbitrage_query m d latest = Ok rows ->
  StronglySorted
    (fun a b => exists x y, profit_margin_pct a = Some x /\
                            profit_margin_pct b = Some y /\ y <= x)
    rows.
Proof.
  intros Hq.
  assert (Hs : StronglySorted (fun a b => margin_desc a b = true) rows).
  { unfold arbitrage_query, price_comparison in Hq.
    destruct (traverse select_group _) as [all|]; [|discriminate].
    injection Hq as <-. apply order_by_sorted.
    - intros x y. apply nulls_first_total.
    - intros x y z H1 H2. unfold margin_desc in *.
      eapply nulls_first_trans; eassumption. }
  revert Hs. apply StronglySorted_impl_in. intros a b Ha Hb Hab.
  apply (in_arbitrage_query _ _ _ _ _ Hq) in Ha, Hb.
  destruct (having_columns _ _ _ (proj1 Ha)) as (x & _ & Ex & _).
  destruct (having_columns _ _ _ (proj1 Hb)) as (y & _ & Ey & _).
  exists x, y. repeat split; try assumption.
  unfold margin_desc in Hab. rewrite Ex, Ey in Hab. simpl in Hab.
  now apply Qle_bool_iff.
Qed.

(** The site that [ARRAY_AGG(site ORDER BY ... LIMIT 1)] returns is the site
    of a row of the group that the order allows before all the others. *)
Lemma first_site_spec (leb : LatestPrices.row -> LatestPrices.row -> bool)
    (g : list LatestPrices.row) (l0 : LatestPrices.row) :
  (forall x y, leb x y = true \/ leb y x = true) ->
  (forall x y z, leb x y = true -> leb y z = true -> leb x z = true) ->
  In l0 g ->
  exists l, In l g /\ first_site leb g = Some (site l) /\
            forall l', In l' g -> leb l l' = true.
Proof.
  intros Htot Htrans Hl0. unfold first_site.
  destruct (order_by leb g) as [|x t] eqn:E.
  - apply (in_order_by leb) in Hl0. rewrite E in Hl0. destruct Hl0.
  - exists x. split; [|split].
    + apply (in_order_by leb). rewrite E. now left.
    + reflexivity.
    + intros l' Hl'. exact (order_by_head Htot Htrans _ _ _ E _ Hl').
Qed.

(** C6 (as the query behaves): cheapest_retailer is the site of a row of the
    group whose price equals min_price, and expensive_retailer the site of
    one whose price equals max_price; among retailers tied at that price the
    query fixes no choice by site name. *)
Theorem arbitrage_retailers_at_extremes (m d : Q) (latest : list LatestPrices.row)
    (rows : list row) (o : row) :
  arbitrage_query m d latest = Ok rows -> In o rows ->
  exists lc le pc pe mn mx,
    (In lc latest /\ key lc = (product_id o, title o) /\
     cheapest_retailer o = Some (site lc) /\
     price lc = Some pc /\ min_price o = Some mn /\ pc == mn) /\
    (In le latest /\ key le = (product_id o, title o) /\
     expensive_retailer o = Some (site le) /\
     price le = Some pe /\ max_price o = Some mx /\ pe == mx).
Proof.
  intros Hq Ho.
  destruct (arbitrage_row _ _ _ _ _ Hq Ho)
    as (mn & mx & [l0 Hl0] & Emn & Emx & _ & _ & _ & _ & Eo).
  set (g := group_of latest (product_id o, title o)) in *.
  assert (Hin0 : exists p0, In (Some p0) (map price g)).
  { pose proof (proj1 (in_group_of _ _ _) Hl0) as (_ & Hp & _).
    destruct (priced_price _ Hp) as [p0 Hp0]. exists p0.
    rewrite <- Hp0. now apply in_map. }
  destruct Hin0 as [p0 Hin0].
  destruct (agg_min_spec Qle_bool_total Qle_bool_trans _ _ Hin0) as (mn' & Emn' & Hmn & Hmin).
  destruct (agg_max_spec Qle_bool_total Qle_bool_trans _ _ Hin0) as (mx' & Emx' & Hmx & Hmax).
  rewrite Emn in Emn'. injection Emn' as <-.
  rewrite Emx in Emx'. injection Emx' as <-.
  apply in_map_iff in Hmn. destruct Hmn as (ln & Hpn & Hln).
  apply in_map_iff in Hmx. destruct Hmx as (lx & Hpx & Hlx).
  destruct (first_site_spec price_asc g l0) as (lc & Hlc & Ec & Hfirst); try assumption.
  { intros x y. apply nulls_first_total. }
  { intros x y z. apply nulls_first_trans. }
  destruct (first_site_spec price_desc g l0) as (le & Hle & Ee & Hlast); try assumption.
  { intros x y. apply nulls_first_total. }
  { intros x y z H1 H2. unfold price_desc in *. eapply nulls_first_trans; eassumption. }
  pose proof (proj1 (in_group_of _ _ _) Hlc) as (Hlc1 & Hlc2 & Hlc3).
  pose proof (proj1 (in_group_of _ _ _) Hle) as (Hle1 & Hle2 & Hle3).
  destruct (priced_price _ Hlc2) as [pc Hpc].
  destruct (priced_price _ Hle2) as [pe Hpe].
  exists lc, le, pc, pe, mn, mx. split.
  - repeat split; try assumption.
    + rewrite Eo. simpl. exact Ec.
    + rewrite Eo. reflexivity.
    + apply Qle_antisym.
      * specialize (Hfirst ln Hln). unfold price_asc in Hfirst.
        rewrite Hpc, Hpn in Hfirst. simpl in Hfirst. now apply Qle_bool_iff.
      * apply Qle_bool_iff. apply Hmin. rewrite <- Hpc. now apply in_map.
  - repeat split; try assumption.
    + rewrite Eo. simpl. exact Ee.
    + rewrite Eo. reflexivity.
    + apply Qle_antisym.
      * apply Qle_bool_iff. apply Hmax. rewrite <- Hpe. now apply in_map.
      * specialize (Hlast lx Hlx). unfold price_desc in Hlast.
        rewrite Hpe, Hpx in Hlast. simpl in Hlast. now apply Qle_bool_iff.
Qed.

(** *** Groups of a single row *)

Lemma filter_filter_and (A : Type) (p q : A -> bool) (l : list A) :
  filter q (filter p l) = filter (fun x => p x && q x) l.
Proof.
  induction l as [|a t IH]; simpl; [reflexivity|].
  destruct (p a); simpl; [destruct (q a)|]; now rewrite IH.
Qed.

Lemma filter_length_le_1 (A K : Type) (f : A -> K) (q q' : A -> bool) (c : K)
    (l : list A) :
  (forall x, In x l -> q x = true -> q' x = true /\ f x = c) ->
  NoDup (map f (filter q' l)) ->
  (List.length (filter q l) <= 1)%nat.
Proof.
  induction l as [|a t IH]; simpl; intros H; [lia|].
  assert (Ht : forall x, In x t -> q x = true -> q' x = true /\ f x = c)
    by (intros x Hx; apply H; now right).
  destruct (q a) eqn:Ea.
  - destruct (H a (or_introl eq_refl) Ea) as [Ea' Hc]. rewrite Ea'. simpl. intros Hn.
    inversion Hn as [|? ? Hnotin Hn']; subst.
    destruct (filter q t) as [|x t'] eqn:Ef; [simpl; lia|exfalso].
    assert (Hx : In x (filter q t)) by (rewrite Ef; now left).
    apply filter_In in Hx. destruct Hx as [Hx Hqx].
    destruct (Ht x Hx Hqx) as [Hq'x Hfx]. apply Hnotin.
    rewrite <- Hfx. apply in_map. apply filter_In. auto.
  - intros Hn. apply (IH Ht). destruct (q' a); [now inversion Hn | assumption].
Qed.



(** A group of one row has no spread: it passes the HAVING clause only under
    thresholds that are not positive. *)
Lemma singleton_row (m d : Q) (latest : list LatestPrices.row) (rows : list row)
    (o : row) :
  arbitrage_query m d latest = Ok rows -> In o rows ->
  (List.length (group_of latest (product_id o, title o)) <= 1)%nat ->
  m <= 0 /\ d <= 0.
Proof.
  intros Hq Ho Hlen.
  destruct (arbitrage_row _ _ _ _ _ Hq Ho)
    as (mn & mx & [l Hl] & Emn & Emx & Hnz & _ & Hm & Hd & _).
  destruct (group_of latest (product_id o, title o)) as [|x [|y t]];
    [destruct Hl | | simpl in Hlen; lia].
  unfold agg_min, agg_max in Emn, Emx. simpl in Emn, Emx.
  destruct (price x) as [px|]; [|discriminate].
  simpl in Emn, Emx. injection Emn as <-. injection Emx as <-.
  assert (E : (px - px) / px * 100 == 0) by (field; assumption).
  rewrite E in Hm. split; [assumption|]. lra.
Qed.



(** C4: the query groups by (product_id, title).  Each returned row
    aggregates exactly the priced rows that share both its product_id and
    its title; two rows of one product_id with different titles never
    contribute to the same returned row; hence the view returns nothing for a
    product whose priced rows all carry different titles, whatever their
    spread. *)
Theorem arbitrage_grouped_by_title (latest : list LatestPrices.row)
    (rows : list row) :
  arbitrage_opportunities latest = Ok rows ->
  (forall o, In o rows ->
     let g := group_of latest (product_id o, title o) in
     (forall l, In l g <->
        In l latest /\ priced l = true /\
        row_product_id l = product_id o /\ row_title l = title o) /\
     min_price o = agg_min Qle_bool (map price g) /\
     max_price o = agg_max Qle_bool (map price g) /\
     price_diff o = sub (max_price o) (min_price o) /\
     retailer_count o = count_distinct String.eqb (map site g)) /\
  (forall o l1 l2, In o rows ->
     row_product_id l1 = row_product_id l2 -> row_title l1 <> row_title l2 ->
     ~ (In l1 (group_of latest (product_id o, title o)) /\
        In l2 (group_of latest (product_id o, title o)))) /\
  (forall p, NoDup (map row_title (priced_rows_of latest p)) ->
     forall o, In o rows -> product_id o <> p).
Proof.
  unfold arbitrage_opportunities. intros Hq. split; [|split].
  - intros o Ho.
    destruct (arbitrage_row _ _ _ _ _ Hq Ho)
      as (mn & mx & _ & Emn & Emx & _ & _ & _ & _ & Eo).
    set (g := group_of latest (product_id o, title o)) in *. split; [|rewrite Emn, Emx, Eo; simpl; tauto].
    intros l. unfold g. rewrite in_group_of. unfold key, row_product_id, row_title.
    split.
    + intros (H1 & H2 & [= H3 H4]). auto.
    + intros (H1 & H2 & H3 & H4). repeat split; try assumption. congruence.
  - intros o l1 l2 _ _ Ht [H1 H2].
    apply in_group_of in H1, H2.
    destruct H1 as (_ & _ & [= _ T1]), H2 as (_ & _ & [= _ T2]).
    apply Ht. unfold row_title. congruence.
  - intros p Hn o Ho Ep.
    assert (Hlen : (List.length (group_of latest (product_id o, title o)) <= 1)%nat).
    { unfold group_of, group_rows. rewrite filter_filter_and.
      apply filter_length_le_1
        with (f := row_title)
             (q' := fun l => priced l && String.eqb (row_product_id l) p)
             (c := title o); [|exact Hn].
      intros x _ Hqx. apply andb_true_iff in Hqx. destruct Hqx as [Hpx Hkx].
      apply arbitrage_key_eqb_eq in Hkx. unfold key in Hkx. injection Hkx as H1 H2.
      split; [|exact H2]. rewrite Hpx. simpl. apply String.eqb_eq.
      unfold row_product_id. congruence. }
    destruct (singleton_row _ _ _ _ _ Hq Ho Hlen) as [Hm0 _].
    revert Hm0. apply Qlt_not_le. reflexivity.
Qed.

(** *** The query on the sample tables *)

Lemma scenario_query :
  arbitrage_query 10 5 Examples.scenario_latest = Ok [Examples.scenario_p1].
Proof. vm_compute. reflexivity. Qed.

Lemma scenario_view :
  arbitrage_opportunities Examples.scenario_latest = Ok [Examples.scenario_p1].
Proof. vm_compute. reflexivity. Qed.

Lemma arbitrage_both_thresholds_witness :
  exists margin diff,
    profit_margin_pct Examples.scenario_p1 = Some margin /\
    price_diff Examples.scenario_p1 = Some diff /\
    10 <= margin /\ 5 <= diff.
Proof.
  exact (arbitrage_both_thresholds 10 5 Examples.scenario_latest
           [Examples.scenario_p1] Examples.scenario_p1
           scenario_query (or_introl eq_refl)).
Defined.

Lemma arbitrage_count_antitone_witness :
  5 <= 30 /\
  (result_count (arbitrage_query 30 1 Examples.scenario_latest)
   <= result_count (arbitrage_query 5 1 Examples.scenario_latest))%nat.
Proof.
  assert (H : 5 <= 30) by (apply Qle_bool_iff; reflexivity).
  split; [exact H|].
  exact (proj1 (arbitrage_count_antitone 5 30 1 Examples.scenario_latest H)).
Defined.

Lemma arbitrage_min_price_positive_witness :
  0 < 5 /\
  (exists mn, min_price Examples.scenario_p1 = Some mn /\ 0 < mn) /\
  arbitrage_query 5 1 Examples.free_offer_latest = DivisionByZero.
Proof.
  assert (H : 0 < 5) by reflexivity.
  split; [exact H|]. split.
  - exact (proj1 (arbitrage_min_price_positive 5 1 Examples.scenario_latest H)
             [Examples.scenario_p1] Examples.scenario_p1
             scenario_view (or_introl eq_refl)).
  - apply (proj2 (arbitrage_min_price_positive 5 1 Examples.free_offer_latest H)
             (LatestPrices.mk
                (Examples.observation "P1" "amazon" Examples.widget (Some 0)
                   Examples.usd (90 * Examples.day)) 1)
             0).
    + vm_compute. left. reflexivity.
    + reflexivity.
    + reflexivity.
    + intros l' p' Hl' _ Hp'. vm_compute in Hl'.
      destruct Hl' as [<-|[<-|[]]]; injection Hp' as <-; discriminate.
Defined.

(** C2, counterexample: the priced rows of P1 have least price 0 and the
    view, instead of leaving P1 out, evaluates the division by zero and
    fails. *)
Lemma arbitrage_zero_price_counterexample :
  agg_min Qle_bool (map price (priced_rows_of Examples.free_offer_latest "P1"))
    = Some 0 /\
  arbitrage_opportunities Examples.free_offer_latest = DivisionByZero /\
  ~ (exists rows, arbitrage_opportunities Examples.free_offer_latest = Ok rows).
Proof.
  assert (E : arbitrage_opportunities Examples.free_offer_latest = DivisionByZero)
    by (vm_compute; reflexivity).
  split; [vm_compute; reflexivity|]. split; [exact E|].
  intros [rows H]. rewrite E in H. discriminate.
Qed.

Lemma arbitrage_sorted_by_margin_witness :
  StronglySorted
    (fun a b => exists x y, profit_margin_pct a = Some x /\
                            profit_margin_pct b = Some y /\ y <= x)
    [Examples.equal_margins_p1; Examples.equal_margins_p2].
Proof.
  apply (arbitrage_sorted_by_margin 5 1 Examples.equal_margins_latest).
  vm_compute. reflexivity.
Defined.

(** C5, counterexample: P1 and P2 have the same margin, P1 the smaller price
    difference, and the view returns P1 first: the specified tie-break (price
    difference descending) does not order the result. *)
Lemma arbitrage_tie_order_counterexample :
  arbitrage_opportunities Examples.equal_margins_latest
    = Ok [Examples.equal_margins_p1; Examples.equal_margins_p2] /\
  spec_order Examples.equal_margins_p1 Examples.equal_margins_p2 = false.
Proof. split; vm_compute; reflexivity. Qed.

Lemma arbitrage_retailers_at_extremes_witness :
  exists lc le pc pe mn mx,
    (In lc Examples.scenario_latest /\
     key lc = (product_id Examples.scenario_p1, title Examples.scenario_p1) /\
     cheapest_retailer Examples.scenario_p1 = Some (site lc) /\
     price lc = Some pc /\ min_price Examples.scenario_p1 = Some mn /\ pc == mn) /\
    (In le Examples.scenario_latest /\
     key le = (product_id Examples.scenario_p1, title Examples.scenario_p1) /\
     expensive_retailer Examples.scenario_p1 = Some (site le) /\
     price le = Some pe /\ max_price Examples.scenario_p1 = Some mx /\ pe == mx).
Proof.
  exact (arbitrage_retailers_at_extremes 10 5 Examples.scenario_latest
           [Examples.scenario_p1] Examples.scenario_p1
           scenario_query (or_introl eq_refl)).
Defined.

(** C6, counterexample: Walmart and Amazon are tied at the least price and
    Target and Kohl's at the greatest; the view names Walmart and Target,
    where the sites first in string order are Amazon and Kohl's. *)
Lemma arbitrage_tied_retailer_counterexample :
  arbitrage_opportunities Examples.tied_prices_latest
    = Ok [Examples.tied_prices_p1] /\
  cheapest_retailer Examples.tied_prices_p1 = Some "walmart"%string /\
  spec_first_site Examples.tied_prices_latest 10 = Some "amazon"%string /\
  expensive_retailer Examples.tied_prices_p1 = Some "target"%string /\
  spec_first_site Examples.tied_prices_latest 20 = Some "kohls"%string.
Proof. repeat split; vm_compute; reflexivity. Qed.


Lemma arbitrage_grouped_by_title_witness :
  arbitrage_opportunities Examples.two_titles_latest = Ok [Examples.two_titles_p2] /\
  NoDup (map row_title (priced_rows_of Examples.two_titles_latest "P1")) /\
  product_id Examples.two_titles_p2 <> "P1"%string.
Proof.
  assert (E : arbitrage_opportunities Examples.two_titles_latest
              = Ok [Examples.two_titles_p2]) by (vm_compute; reflexivity).
  assert (N : NoDup (map row_title (priced_rows_of Examples.two_titles_latest "P1"))).
  { vm_compute. constructor; [intros [H|[]]; discriminate H|].
    constructor; [intros []|constructor]. }
  split; [exact E|]. split; [exact N|].
  exact (proj2 (proj2 (arbitrage_grouped_by_title Examples.two_titles_latest _ E))
           "P1"%string N Examples.two_titles_p2 (or_introl eq_refl)).
Defined.

End ArbitrageFacts.

(** ** Properties of [price_history_aggregated] *)

Module PriceHistoryFacts.

Import Sql SqlFacts PriceHistory.

Lemma history_key_eqb_eq a b : key_eqb a b = true <-> a = b.
Proof.
  destruct a as [[a1 a2] a3], b as [[b1 b2] b3]. unfold key_eqb. simpl.
  rewrite !andb_true_iff, !String.eqb_eq, Z.eqb_eq.
  split; [intros [[-> ->] ->]|intros [= -> -> ->]]; auto.
Qed.

Lemma string_leb_trans (s1 s2 s3 : string) :
  String.leb s1 s2 = true -> String.leb s2 s3 = true -> String.leb s1 s3 = true.
Proof.
  revert s2 s3. unfold String.leb.
  induction s1 as [|a s1 IH]; intros [|b s2] [|c s3]; simpl; try congruence.
  unfold Ascii.compare.
  destruct (N.compare_spec (N_of_ascii a) (N_of_ascii b)) as [Eab|Lab|Gab];
    destruct (N.compare_spec (N_of_ascii b) (N_of_ascii c)) as [Ebc|Lbc|Gbc];
    destruct (N.compare_spec (N_of_ascii a) (N_of_ascii c)) as [Eac|Lac|Gac];
    try congruence; try lia.
  apply IH.
Qed.

Lemma in_price_history now products h :
  In h (price_history_aggregated now products) <->
  exists k, h = select_group (k, group_of now products k) /\
            exists r, In r (group_of now products k).
Proof.
  unfold price_history_aggregated. rewrite in_map_iff. split.
  - intros ([k g] & <- & Hg). apply (in_group_by key history_key_eqb_eq) in Hg.
    destruct Hg as [-> (r & Hr & Hk)]. exists k. split; [reflexivity|].
    exists r. apply (in_group_rows key history_key_eqb_eq). auto.
  - intros (k & -> & r & Hr). exists (k, group_of now products k).
    split; [reflexivity|]. apply (in_group_by key history_key_eqb_eq).
    split; [reflexivity|]. exists r.
    now apply (in_group_rows key history_key_eqb_eq) in Hr.
Qed.

(** C9 (as the view behaves): the currency of a history point is
    [MAX(currency)], the greatest in string order of the non-NULL currencies
    of the observations of its (product_id, date, site) group that have a
    price, and NULL when none has a currency; the time of scraping plays no
    part. *)
Theorem price_history_currency_is_max (now : Z) (products : list Products.row)
    (h : row) :
  In h (price_history_aggregated now products) ->
  (forall c, currency h = Some c ->
     (exists o, In o (group_of now products (product_id h, date h, site h)) /\
                Products.currency o = Some c) /\
     (forall o c', In o (group_of now products (product_id h, date h, site h)) ->
                   Products.currency o = Some c' -> String.leb c' c = true)) /\
  (currency h = None ->
   forall o, In o (group_of now products (product_id h, date h, site h)) ->
             Products.currency o = None).
Proof.
  intros Hh. apply in_price_history in Hh. destruct Hh as ([[p dt] s] & -> & _).
  simpl. set (g := group_of now products (p, dt, s)). split.
  - intros c Ec.
    assert (Hsome : exists c0, In (Some c0) (map Products.currency g)).
    { unfold agg_max in Ec. exists c.
      destruct (non_null (map Products.currency g)) as [|x t] eqn:En; [discriminate|].
      apply in_non_null. rewrite En. injection Ec as <-.
      destruct (fold_greatest _ _ String.leb_total string_leb_trans t x) as ([->|H] & _);
        [now left | now right]. }
    destruct Hsome as [c0 Hc0].
    destruct (agg_max_spec String.leb_total string_leb_trans _ _ Hc0)
      as (mx & Emx & Hin & Hmax).
    rewrite Emx in Ec. injection Ec as <-. split.
    + apply in_map_iff in Hin. destruct Hin as (o & Ho & Hin). eauto.
    + intros o c' Ho Hc'. apply Hmax. rewrite <- Hc'. now apply in_map.
  - intros En o Ho. destruct (Products.currency o) as [c|] eqn:Ec; [|reflexivity].
    assert (Hin : In (Some c) (map Products.currency g))
      by (rewrite <- Ec; now apply in_map).
    destruct (agg_max_spec String.leb_total string_leb_trans _ _ Hin) as (mx & Emx & _).
    congruence.
Qed.

(** *** The view on the sample tables *)

Lemma price_history_currency_is_max_witness :
  In Examples.two_currencies_point
     (price_history_aggregated Examples.now Examples.two_currencies) /\
  forall o c',
    In o (group_of Examples.now Examples.two_currencies ("P1"%string, 95%Z, "amazon"%string)) ->
    Products.currency o = Some c' -> String.leb c' "USD" = true.
Proof.
  assert (H : In Examples.two_currencies_point
                 (price_history_aggregated Examples.now Examples.two_currencies))
    by (vm_compute; left; reflexivity).
  split; [exact H|].
  exact (proj2 (proj1 (price_history_currency_is_max
                         Examples.now Examples.two_currencies
                         Examples.two_currencies_point H)
                  "USD"%string eq_refl)).
Defined.

(** C9, counterexample: on one day Amazon is quoted in USD and, later, in
    EUR; the history point carries USD, the last observed currency is EUR. *)
Lemma price_history_currency_counterexample :
  price_history_aggregated Examples.now Examples.two_currencies
    = [Examples.two_currencies_point] /\
  currency Examples.two_currencies_point = Some "USD"%string /\
  last_observed_currency
    (group_of Examples.now Examples.two_currencies ("P1"%string, 95%Z, "amazon"%string))
    = Some "EUR"%string.
Proof. repeat split; vm_compute; reflexivity. Qed.

End PriceHistoryFacts.

(** ** Properties of [product_brands] *)

Module ProductBrandsFacts.

Import Sql SqlFacts ProductBrands.

Lemma in_product_brands latest b :
  In b (product_brands latest) <->
  exists k, b = select_group (k, group_rows row_brand option_string_eqb k (filter branded latest))
            /\ exists l, In l latest /\ branded l = true /\ row_brand l = k.
Proof.
  unfold product_brands. rewrite (in_order_by count_desc), in_map_iff. split.
  - intros ([k g] & <- & Hg). apply (in_group_by row_brand option_string_eqb_eq) in Hg.
    destruct Hg as [-> (l & Hl & Hk)]. exists k. split; [reflexivity|].
    apply filter_In in Hl. exists l. tauto.
  - intros (k & -> & l & Hl & Hb & Hk). eexists (k, _). split; [reflexivity|].
    apply (in_group_by row_brand option_string_eqb_eq). split; [reflexivity|].
    exists l. split; [|assumption]. apply filter_In. auto.
Qed.

Lemma branded_iff l :
  branded l = true <-> exists name, row_brand l = Some name /\ name <> EmptyString.
Proof.
  unfold branded. destruct (row_brand l) as [b|].
  - rewrite negb_true_iff, String.eqb_neq. split.
    + intros H. now exists b.
    + intros (name & [= ->] & H). assumption.
  - split; [discriminate | intros (name & H & _); discriminate].
Qed.

(** C10: the view returns no row of NULL or empty brand; for a returned
    brand, product_count is the number of distinct product_id values and
    retailer_count the number of distinct site values among the latest rows
    of that brand; every non-empty brand of the input is returned; and three
    Acme rows over two products and two sites give product_count = 2 and
    retailer_count = 2. *)
Theorem product_brands_counts (latest : list LatestPrices.row) :
  (forall b, In b (product_brands latest) ->
     exists name ps ss,
       brand b = Some name /\ name <> EmptyString /\
       NoDup ps /\
       (forall p, In p ps <->
          exists l, In l latest /\ row_brand l = Some name /\ row_product_id l = p) /\
       product_count b = Z.of_nat (List.length ps) /\
       NoDup ss /\
       (forall s, In s ss <->
          exists l, In l latest /\ row_brand l = Some name /\ row_site l = s) /\
       retailer_count b = Z.of_nat (List.length ss)) /\
  (forall l name, In l latest -> row_brand l = Some name -> name <> EmptyString ->
     exists b, In b (product_brands latest) /\ brand b = Some name) /\
  map (fun b => (brand b, product_count b, retailer_count b))
      (product_brands acme_latest) = [(Some "Acme"%string, 2%Z, 2%Z)].
Proof.
  split; [|split].
  - intros b Hb. apply in_product_brands in Hb.
    destruct Hb as (k & -> & l0 & Hl0 & Hb0 & Hk0).
    destruct (proj1 (branded_iff l0) Hb0) as (name & Hname & Hne).
    assert (Ek : k = Some name) by congruence. subst k.
    set (g := group_rows row_brand option_string_eqb (Some name) (filter branded latest)).
    assert (Hg : forall l, In l g <-> In l latest /\ row_brand l = Some name).
    { intros l. unfold g.
      rewrite (in_group_rows row_brand option_string_eqb_eq), filter_In. split.
      - tauto.
      - intros [H1 H2]. repeat split; try assumption.
        apply branded_iff. now exists name. }
    exists name, (distinct String.eqb (map row_product_id g)),
           (distinct String.eqb (map row_site g)).
    simpl. rewrite Hname. repeat split; try assumption.
    + apply (NoDup_distinct String.eqb_eq).
    + intros Hp. apply (proj1 (in_distinct String.eqb_eq _ _)) in Hp. apply in_map_iff in Hp.
      destruct Hp as (l & Hl & Hin). apply Hg in Hin. exists l. tauto.
    + intros (l & Hl & Hbl & Hpl). apply (in_distinct String.eqb_eq).
      rewrite <- Hpl. apply in_map. apply Hg. auto.
    + apply (NoDup_distinct String.eqb_eq).
    + intros Hs. apply (proj1 (in_distinct String.eqb_eq _ _)) in Hs. apply in_map_iff in Hs.
      destruct Hs as (l & Hl & Hin). apply Hg in Hin. exists l. tauto.
    + intros (l & Hl & Hbl & Hsl). apply (in_distinct String.eqb_eq).
      rewrite <- Hsl. apply in_map. apply Hg. auto.
  - intros l name Hl Hb Hne. eexists. split.
    + apply in_product_brands. exists (Some name). split; [reflexivity|].
      exists l. repeat split; try assumption. apply branded_iff. now exists name.
    + reflexivity.
  - vm_compute. reflexivity.
Qed.

(** *** The view on the sample table *)

Lemma product_brands_counts_witness :
  In Examples.acme (product_brands acme_latest) /\
  exists name ps ss,
    brand Examples.acme = Some name /\ name <> EmptyString /\
    NoDup ps /\
    (forall p, In p ps <->
       exists l, In l acme_latest /\ row_brand l = Some name /\ row_product_id l = p) /\
    product_count Examples.acme = Z.of_nat (List.length ps) /\
    NoDup ss /\
    (forall s, In s ss <->
       exists l, In l acme_latest /\ row_brand l = Some name /\ row_site l = s) /\
    retailer_count Examples.acme = Z.of_nat (List.length ss).
Proof.
  assert (H : In Examples.acme (product_brands acme_latest))
    by (vm_compute; left; reflexivity).
  split; [exact H|].
  exact (proj1 (product_brands_counts acme_latest) Examples.acme H).
Defined.

End ProductBrandsFacts.


(** ** Further properties of [latest_prices] *)

Module LatestPricesMore.

Import Sql SqlFacts LatestPrices LatestPricesFacts.

Lemma filter_all_true (A : Type) (p : A -> bool) (l : list A) :
  (forall x, In x l -> p x = true) -> filter p l = l.
Proof.
  induction l as [|a t IH]; simpl; intros H; [reflexivity|].
  rewrite (H a (or_introl eq_refl)). f_equal. apply IH. intros x Hx. apply H. now right.
Qed.

Lemma filter_none (A : Type) (p : A -> bool) (l : list A) :
  (forall x, In x l -> p x = false) -> filter p l = [].
Proof.
  induction l as [|a t IH]; simpl; intros H; [reflexivity|].
  rewrite (H a (or_introl eq_refl)). apply IH. intros x Hx. apply H. now right.
Qed.

(** A column without repetition is its own list of distinct values. *)
Lemma distinct_NoDup (K : Type) (eqb : K -> K -> bool) (l : list K) :
  (forall a b, eqb a b = true <-> a = b) ->
  NoDup l -> distinct eqb l = l.
Proof.
  intros Heq. induction 1 as [|a t Hnotin Hnd IH]; simpl; [reflexivity|].
  rewrite IH. f_equal. apply filter_all_true. intros x Hx.
  apply negb_true_iff. destruct (eqb a x) eqn:E; [|reflexivity].
  apply Heq in E. subst. contradiction.
Qed.

(** Under a key without repetition every group holds a single row. *)
Lemma group_rows_unique (A K : Type) (key : A -> K) (eqb : K -> K -> bool)
    (l : list A) (r : A) :
  (forall a b, eqb a b = true <-> a = b) ->
  NoDup (map key l) -> In r l -> group_rows key eqb (key r) l = [r].
Proof.
  intros Heq. unfold group_rows.
  induction l as [|a t IH]; simpl; intros Hnd Hr; [destruct Hr|].
  inversion Hnd as [|? ? Hnotin Hnd']; subst. destruct Hr as [->|Hr].
  - rewrite (proj2 (Heq (key r) (key r)) eq_refl). f_equal.
    apply filter_none. intros x Hx.
    destruct (eqb (key x) (key r)) eqn:E; [|reflexivity].
    apply Heq in E. exfalso. apply Hnotin. rewrite <- E. now apply in_map.
  - destruct (eqb (key a) (key r)) eqn:E.
    + apply Heq in E. exfalso. apply Hnotin. rewrite E. now apply in_map.
    + now apply IH.
Qed.

Lemma flat_map_groups_unique (A K B : Type) (key : A -> K) (eqb : K -> K -> bool)
    (F : list A -> list B) (l : list A) :
  (forall a b, eqb a b = true <-> a = b) ->
  NoDup (map key l) ->
  flat_map (fun g => F (snd g)) (group_by key eqb l) = flat_map (fun r => F [r]) l.
Proof.
  intros Heq Hnd. unfold group_by. rewrite (distinct_NoDup _ eqb _ Heq Hnd).
  rewrite !flat_map_concat_map, !map_map. simpl. f_equal.
  apply map_ext_in. intros r Hr. now rewrite (group_rows_unique _ _ key eqb l r Heq Hnd Hr).
Qed.

Lemma latest_prices_rows now products l :
  In l (latest_prices now products) ->
  rn l = 1%Z /\ in_window now (obs l) = true.
Proof.
  intros Hl. apply in_latest_prices in Hl. destruct Hl as (k & Hl & _).
  apply in_top in Hl. destruct Hl as (Hrn & Hin & _). split; [assumption|].
  apply (in_group_rows key latest_key_eqb_eq) in Hin. destruct Hin as [Hin _].
  apply filter_In in Hin. tauto.
Qed.

(** X1: the view is idempotent: read again over the observations it
    returned, at the same instant, it returns the same rows in the same
    order. *)
Theorem latest_prices_idempotent (now : Z) (products : list Products.row) :
  latest_prices now (map obs (latest_prices now products))
  = latest_prices now products.
Proof.
  set (L := latest_prices now products).
  assert (Hrows : forall l, In l L -> rn l = 1%Z /\ in_window now (obs l) = true)
    by (intros l; apply latest_prices_rows).
  assert (Hnd : NoDup (map key (map obs L))).
  { rewrite map_map. apply (latest_prices_keys_unique now products). }
  rewrite latest_prices_top.
  rewrite filter_all_true.
  2:{ intros o Ho. apply in_map_iff in Ho. destruct Ho as (l & <- & Hl).
      now apply Hrows. }
  rewrite (flat_map_groups_unique _ _ _ key key_eqb top _ latest_key_eqb_eq Hnd).
  rewrite flat_map_concat_map, map_map. unfold top. simpl.
  clear Hnd. induction L as [|l t IH]; simpl; [reflexivity|].
  rewrite IH by (intros x Hx; apply Hrows; now right). f_equal.
  destruct (Hrows l (or_introl eq_refl)) as [Hrn _].
  destruct l as [o n]. simpl in *. now subst.
Qed.

(** X2: an in-window observation that is strictly newer than every other
    observation of its (product_id, site) is the row of that pair, with row
    number 1. *)
Theorem latest_prices_newest (now : Z) (products : list Products.row)
    (o : Products.row) :
  In o products ->
  (timestamp_sub_days now 30 <= Products.scraped_at o)%Z ->
  (forall o', In o' products -> key o' = key o ->
     o' = o \/ (Products.scraped_at o' < Products.scraped_at o)%Z) ->
  In (mk o 1) (latest_prices now products).
Proof.
  intros Ho Hw Hnew.
  assert (Hf : In o (filter (in_window now) products)).
  { apply filter_In. split; [assumption|]. now apply Z.leb_le. }
  assert (Hg : In o (group_rows key key_eqb (key o) (filter (in_window now) products))).
  { apply (in_group_rows key latest_key_eqb_eq). auto. }
  destruct (top_nonempty _ _ Hg) as [l Hl].
  assert (Hin : In l (top (group_rows key key_eqb (key o) (filter (in_window now) products))))
    by (rewrite Hl; now left).
  assert (Hout : In l (latest_prices now products)).
  { apply in_latest_prices. exists (key o). split; [assumption|]. eauto. }
  destruct (in_top _ _ Hin) as (Hrn & Hobs & Hmax).
  specialize (Hmax o Hg).
  apply (in_group_rows key latest_key_eqb_eq) in Hobs. destruct Hobs as [Hobs Hk].
  apply filter_In in Hobs. destruct Hobs as [Hobs _].
  destruct (Hnew (obs l) Hobs Hk) as [E|Hlt]; [|lia].
  destruct l as [o' n]. simpl in *. subst. assumption.
Qed.

Lemma latest_prices_newest_witness :
  In (mk (Examples.observation "P1" "amazon" Examples.widget (Some 95)
            Examples.usd (90 * Examples.day)) 1)
     (latest_prices Examples.now Examples.repeated).
Proof.
  apply latest_prices_newest.
  - vm_compute. tauto.
  - vm_compute. discriminate.
  - intros o' Ho' Hk. vm_compute in Ho'.
    destruct Ho' as [<-|[<-|[<-|[<-|[]]]]];
      try (right; reflexivity); try (left; reflexivity); discriminate Hk.
Defined.

End LatestPricesMore.

(** ** Further properties of [arbitrage_opportunities] *)

Module ArbitrageMore.

Import Sql SqlFacts Arbitrage ArbitrageFacts.

Lemma traverse_error_inv (A B : Type) (f : A -> result B) (l : list A) :
  traverse f l = DivisionByZero -> exists a, In a l /\ f a = DivisionByZero.
Proof.
  induction l as [|a t IH]; simpl; [discriminate|].
  destruct (f a) as [b|] eqn:Ea.
  - destruct (traverse f t) as [bs|]; [discriminate|].
    intros _. destruct (IH eq_refl) as (x & Hx & Ex). exists x. auto.
  - intros _. exists a. auto.
Qed.

Lemma traverse_map (A B C : Type) (f : A -> result B) (h : B -> C) (g : A -> C)
    (l : list A) (bs : list B) :
  (forall a b, f a = Ok b -> h b = g a) ->
  traverse f l = Ok bs -> map h bs = map g l.
Proof.
  intros H. revert bs. induction l as [|a t IH]; simpl; intros bs E.
  - now inversion E.
  - destruct (f a) as [b|] eqn:Ea; [|discriminate].
    destruct (traverse f t) as [bs0|]; [|discriminate].
    inversion E; subst. simpl. now rewrite (H a b Ea), (IH bs0 eq_refl).
Qed.

Lemma NoDup_map_filter (A B : Type) (h : A -> B) (p : A -> bool) (l : list A) :
  NoDup (map h l) -> NoDup (map h (filter p l)).
Proof.
  induction l as [|a t IH]; simpl; intros Hn; [constructor|].
  inversion Hn as [|? ? Hnotin Hn']; subst.
  destruct (p a); simpl; [constructor|]; auto.
  intros Hin. apply Hnotin. apply in_map_iff in Hin.
  destruct Hin as (x & Ex & Hx). apply filter_In in Hx.
  rewrite <- Ex. apply in_map. tauto.
Qed.

(** X3: the query fails, with the division-by-zero error, exactly when some
    group of priced rows has a least price equal to zero; the thresholds
    play no part in it. *)
Theorem arbitrage_query_fails_iff (m d : Q) (latest : list LatestPrices.row) :
  arbitrage_query m d latest = DivisionByZero <->
  exists l mn, In l latest /\ priced l = true /\
               agg_min Qle_bool (map price (group_of latest (key l))) = Some mn /\
               mn == 0.
Proof.
  unfold arbitrage_query, price_comparison. split.
  - destruct (traverse select_group _) as [all|] eqn:E; [discriminate|]. intros _.
    apply traverse_error_inv in E. destruct E as ([k g] & Hg & Hs).
    apply in_groups in Hg. destruct Hg as [-> [l Hl]].
    pose proof (proj1 (in_group_of _ _ _) Hl) as (Hin & Hp & Hk).
    unfold select_group in Hs. simpl in Hs.
    destruct (agg_min Qle_bool (map price (group_of latest k))) as [mn|] eqn:Emn.
    + exists l, mn. rewrite Hk. repeat split; try assumption.
      destruct (agg_max Qle_bool (map price (group_of latest k))) as [mx|];
        simpl in Hs; [|discriminate].
      destruct (Qeq_bool mn 0) eqn:E0; [now apply Qeq_bool_iff | discriminate].
    + destruct (agg_max Qle_bool (map price (group_of latest k))); discriminate.
  - intros (l & mn & Hin & Hp & Emn & H0).
    rewrite (traverse_error select_group _ (key l, group_of latest (key l))).
    + reflexivity.
    + apply in_groups. split; [reflexivity|]. exists l. apply in_group_of. auto.
    + now apply select_group_zero with mn.
Qed.

Lemma arbitrage_query_fails_iff_witness :
  arbitrage_query 5 1 Examples.free_offer_latest = DivisionByZero.
Proof.
  apply (proj2 (arbitrage_query_fails_iff 5 1 Examples.free_offer_latest)).
  exists (LatestPrices.mk
            (Examples.observation "P1" "amazon" Examples.widget (Some 0)
               Examples.usd (90 * Examples.day)) 1), 0.
  repeat split.
  - vm_compute. left. reflexivity.
Defined.

(** X4: the query returns at most one row per (product_id, title). *)
Theorem arbitrage_one_row_per_group (m d : Q) (latest : list LatestPrices.row)
    (rows : list row) :
  arbitrage_query m d latest = Ok rows ->
  NoDup (map (fun o => (product_id o, title o)) rows).
Proof.
  unfold arbitrage_query, price_comparison.
  destruct (traverse select_group _) as [all|] eqn:E; [|discriminate].
  intros [= <-].
  apply (Permutation_NoDup
           (Permutation_map _ (order_by_perm margin_desc (filter (having m d) all)))).
  apply NoDup_map_filter.
  assert (Hk : forall a b, select_group a = Ok b ->
                           (fun o => (product_id o, title o)) b = fst a).
  { intros [k g] b. unfold select_group. simpl.
    destruct (div _ _); [|discriminate]. intros [= <-]. simpl. now destruct k. }
  rewrite (traverse_map _ _ _ select_group _ fst _ _ Hk E).
  apply (NoDup_group_keys key arbitrage_key_eqb_eq).
Qed.

Lemma arbitrage_one_row_per_group_witness :
  NoDup (map (fun o => (product_id o, title o))
           [Examples.equal_margins_p1; Examples.equal_margins_p2]).
Proof.
  apply (arbitrage_one_row_per_group 5 1 Examples.equal_margins_latest).
  vm_compute. reflexivity.
Defined.

(** X5: in every returned row min_price and max_price are not NULL and
    bound the price of each priced row of its (product_id, title), and
    price_diff is not NULL and not negative. *)
Theorem arbitrage_row_bounds (m d : Q) (latest : list LatestPrices.row)
    (rows : list row) (o : row) :
  arbitrage_query m d latest = Ok rows -> In o rows ->
  exists mn mx diff,
    min_price o = Some mn /\ max_price o = Some mx /\
    price_diff o = Some diff /\ mn <= mx /\ 0 <= diff /\
    forall l p, In l latest ->
                row_product_id l = product_id o -> row_title l = title o ->
                price l = Some p -> mn <= p /\ p <= mx.
Proof.
  intros Hq Ho.
  destruct (arbitrage_row _ _ _ _ _ Hq Ho)
    as (mn & mx & [l0 Hl0] & Emn & Emx & Hnz & Hle & _ & _ & Eo).
  set (g := group_of latest (product_id o, title o)) in *.
  exists mn, mx, (mx - mn).
  assert (Hb : forall l p, In l latest ->
                 row_product_id l = product_id o -> row_title l = title o ->
                 price l = Some p -> mn <= p /\ p <= mx).
  { intros l p Hl Hpid Htitle Hp.
    assert (Hin : In (Some p) (map price g)).
    { rewrite <- Hp. apply in_map. apply in_group_of. repeat split.
      - assumption.
      - unfold priced. now rewrite Hp.
      - unfold key. unfold row_product_id in Hpid. unfold row_title in Htitle.
        now rewrite Hpid, Htitle. }
    destruct (agg_min_spec Qle_bool_total Qle_bool_trans _ _ Hin) as (mn' & Emn' & _ & Hmin).
    destruct (agg_max_spec Qle_bool_total Qle_bool_trans _ _ Hin) as (mx' & Emx' & _ & Hmax).
    rewrite Emn in Emn'. injection Emn' as <-.
    rewrite Emx in Emx'. injection Emx' as <-.
    split; apply Qle_bool_iff; [now apply Hmin | now apply Hmax]. }
  rewrite Eo at 1 2 3. simpl.
  split; [reflexivity|]. split; [reflexivity|]. split; [reflexivity|].
  split; [assumption|]. split; [lra | exact Hb].
Qed.

Lemma arbitrage_row_bounds_witness :
  exists mn mx diff,
    min_price Examples.scenario_p1 = Some mn /\
    max_price Examples.scenario_p1 = Some mx /\
    price_diff Examples.scenario_p1 = Some diff /\ mn <= mx /\ 0 <= diff /\
    forall l p, In l Examples.scenario_latest ->
                row_product_id l = product_id Examples.scenario_p1 ->
                row_title l = title Examples.scenario_p1 ->
                price l = Some p -> mn <= p /\ p <= mx.
Proof.
  exact (arbitrage_row_bounds 10 5 Examples.scenario_latest
           [Examples.scenario_p1] Examples.scenario_p1
           scenario_query (or_introl eq_refl)).
Defined.

Lemma NoDup_map_inj_in (A B : Type) (f : A -> B) (l : list A) (a b : A) :
  NoDup (map f l) -> In a l -> In b l -> f a = f b -> a = b.
Proof.
  induction l as [|x t IH]; simpl; intros Hn Ha Hb E; [destruct Ha|].
  inversion Hn as [|? ? Hnotin Hn']; subst.
  destruct Ha as [->|Ha], Hb as [->|Hb]; auto.
  - exfalso. apply Hnotin. rewrite E. now apply in_map.
  - exfalso. apply Hnotin. rewrite <- E. now apply in_map.
Qed.

Lemma distinct_two (l : list string) (x y : string) :
  In x l -> In y l -> x <> y -> (2 <= List.length (distinct String.eqb l))%nat.
Proof.
  intros Hx Hy Hne.
  apply (in_distinct String.eqb_eq) in Hx. apply (in_distinct String.eqb_eq) in Hy.
  pose proof (NoDup_distinct String.eqb_eq l) as Hnd.
  destruct (distinct String.eqb l) as [|a [|b t]]; simpl in *;
    [destruct Hx | | lia].
  destruct Hx as [<-|[]], Hy as [<-|[]]. congruence.
Qed.

(** X6: when the latest rows hold one row per (product_id, site) and the
    minimum price difference is positive (1.0 in the view), every returned
    opportunity counts at least two retailers and names two different
    retailers as cheapest and most expensive. *)
Theorem arbitrage_two_retailers (m d : Q) (latest : list LatestPrices.row)
    (rows : list row) (o : row) :
  LatestPrices.keys_unique latest -> 0 < d ->
  arbitrage_query m d latest = Ok rows -> In o rows ->
  (2 <= retailer_count o)%Z /\
  exists c e, cheapest_retailer o = Some c /\ expensive_retailer o = Some e /\ c <> e.
Proof.
  intros Hu Hd Hq Ho.
  destruct (arbitrage_row _ _ _ _ _ Hq Ho)
    as (mn & mx & [l0 Hl0] & Emn & Emx & _ & _ & _ & Hdiff & Eo).
  set (g := group_of latest (product_id o, title o)) in *.
  assert (Hin0 : exists p0, In (Some p0) (map price g)).
  { pose proof (proj1 (in_group_of _ _ _) Hl0) as (_ & Hp & _).
    destruct (priced_price _ Hp) as [p0 Hp0]. exists p0.
    rewrite <- Hp0. now apply in_map. }
  destruct Hin0 as [p0 Hin0].
  destruct (agg_min_spec Qle_bool_total Qle_bool_trans _ _ Hin0) as (mn' & Emn' & Hmn & _).
  destruct (agg_max_spec Qle_bool_total Qle_bool_trans _ _ Hin0) as (mx' & Emx' & Hmx & _).
  rewrite Emn in Emn'. injection Emn' as <-.
  rewrite Emx in Emx'. injection Emx' as <-.
  destruct (first_site_spec price_asc g l0) as (lc & Hlc & Ec & Hfirst); try assumption.
  { intros x y. apply nulls_first_total. }
  { intros x y z. apply nulls_first_trans. }
  destruct (first_site_spec price_desc g l0) as (le & Hle & Ee & Hlast); try assumption.
  { intros x y. apply nulls_first_total. }
  { intros x y z H1 H2. unfold price_desc in *. eapply nulls_first_trans; eassumption. }
  apply in_map_iff in Hmn. destruct Hmn as (ln & Hpn & Hln).
  apply in_map_iff in Hmx. destruct Hmx as (lx & Hpx & Hlx).
  pose proof (proj1 (in_group_of _ _ _) Hlc) as (Hlc1 & Hlc2 & Hlc3).
  pose proof (proj1 (in_group_of _ _ _) Hle) as (Hle1 & Hle2 & Hle3).
  destruct (priced_price _ Hlc2) as [pc Hpc].
  destruct (priced_price _ Hle2) as [pe Hpe].
  assert (Hc : pc <= mn).
  { specialize (Hfirst ln Hln). unfold price_asc in Hfirst.
    rewrite Hpc, Hpn in Hfirst. simpl in Hfirst. now apply Qle_bool_iff. }
  assert (He : mx <= pe).
  { specialize (Hlast lx Hlx). unfold price_desc in Hlast.
    rewrite Hpe, Hpx in Hlast. simpl in Hlast. now apply Qle_bool_iff. }
  assert (Hsite : site lc <> site le).
  { intros Es.
    assert (El : lc = le).
    { apply (NoDup_map_inj_in _ _ LatestPrices.row_key latest); try assumption.
      unfold LatestPrices.row_key, LatestPrices.key. f_equal; [|exact Es].
      unfold key in Hlc3, Hle3. congruence. }
    subst le. rewrite Hpc in Hpe. injection Hpe as <-. lra. }
  split.
  - rewrite Eo. simpl. unfold count_distinct.
    apply (inj_le 2). apply (distinct_two _ (site lc) (site le)); try assumption.
    + now apply in_map.
    + now apply in_map.
  - exists (site lc), (site le). rewrite Eo. simpl. auto.
Qed.

Lemma arbitrage_two_retailers_witness :
  0 < 1 /\
  (2 <= retailer_count Examples.tied_prices_p1)%Z /\
  exists c e, cheapest_retailer Examples.tied_prices_p1 = Some c /\
              expensive_retailer Examples.tied_prices_p1 = Some e /\ c <> e.
Proof.
  assert (H : 0 < 1) by reflexivity.
  split; [exact H|].
  apply (arbitrage_two_retailers 5 1 Examples.tied_prices_latest
           [Examples.tied_prices_p1]).
  - apply LatestPricesFacts.latest_prices_keys_unique.
  - exact H.
  - vm_compute. reflexivity.
  - left. reflexivity.
Defined.

(** Whether the query fails does not depend on the thresholds. *)
Lemma failure_ignores_thresholds (m1 d1 m2 d2 : Q) (latest : list LatestPrices.row) :
  arbitrage_query m1 d1 latest = DivisionByZero ->
  arbitrage_query m2 d2 latest = DivisionByZero.
Proof.
  unfold arbitrage_query, price_comparison.
  destruct (traverse select_group _); [discriminate | reflexivity].
Qed.

(** X7: lowering either threshold only adds rows: every opportunity
    returned under thresholds (m2, d2) is returned under any thresholds
    m1 <= m2 and d1 <= d2. *)
Theorem arbitrage_thresholds_monotone (m1 m2 d1 d2 : Q)
    (latest : list LatestPrices.row) (rows2 : list row) :
  m1 <= m2 -> d1 <= d2 ->
  arbitrage_query m2 d2 latest = Ok rows2 ->
  exists rows1, arbitrage_query m1 d1 latest = Ok rows1 /\
                forall o, In o rows2 -> In o rows1.
Proof.
  intros Hm Hd Hq2.
  destruct (arbitrage_query m1 d1 latest) as [rows1|] eqn:Hq1.
  - exists rows1. split; [reflexivity|]. intros o Ho.
    apply (in_arbitrage_query _ _ _ _ _ Hq1).
    apply (in_arbitrage_query _ _ _ _ _ Hq2) in Ho. destruct Ho as [Hh Hg].
    split; [|assumption].
    destruct (having_columns _ _ _ Hh) as (margin & diff & Em & Ed & H1 & H2).
    unfold having, ge. rewrite Em, Ed. apply andb_true_iff.
    rewrite !Qle_bool_iff. split; eapply Qle_trans; eassumption.
  - exfalso. apply (failure_ignores_thresholds m1 d1 m2 d2) in Hq1. congruence.
Qed.

Lemma arbitrage_thresholds_monotone_witness :
  0 <= 10 /\ 0 <= 5 /\
  exists rows1, arbitrage_query 0 0 Examples.scenario_latest = Ok rows1 /\
                forall o, In o [Examples.scenario_p1] -> In o rows1.
Proof.
  assert (H1 : 0 <= 10) by (apply Qle_bool_iff; reflexivity).
  assert (H2 : 0 <= 5) by (apply Qle_bool_iff; reflexivity).
  split; [exact H1|]. split; [exact H2|].
  exact (arbitrage_thresholds_monotone 0 10 0 5 Examples.scenario_latest
           [Examples.scenario_p1] H1 H2 scenario_query).
Defined.

End ArbitrageMore.

(** ** Further properties of [price_history_aggregated] *)

Module PriceHistoryMore.

Import Sql SqlFacts PriceHistory PriceHistoryFacts.

Section Partition.
Variables A K : Type.
Variable key : A -> K.
Variable eqb : K -> K -> bool.
Hypothesis eqb_eq : forall a b, eqb a b = true <-> a = b.

Lemma hits_once (ks : list K) (x : K) :
  NoDup ks -> In x ks ->
  list_sum (map (fun k => if eqb x k then 1 else 0)%nat ks) = 1%nat.
Proof.
  induction 1 as [|k t Hnotin Hnd IH]; simpl; intros Hx; [destruct Hx|].
  destruct (eqb x k) eqn:E.
  - apply eqb_eq in E. subst k. f_equal.
    clear IH Hx Hnd. induction t as [|y t IH]; simpl; [reflexivity|].
    destruct (eqb x y) eqn:Ey.
    + apply eqb_eq in Ey. subst. exfalso. apply Hnotin. now left.
    + apply IH. intros H. apply Hnotin. now right.
  - destruct Hx as [->|Hx]; [|now apply IH].
    rewrite (proj2 (eqb_eq x x) eq_refl) in E. discriminate.
Qed.

Lemma list_sum_split (f g : K -> nat) (ks : list K) :
  list_sum (map (fun k => f k + g k)%nat ks)
  = (list_sum (map f ks) + list_sum (map g ks))%nat.
Proof. induction ks as [|k t IH]; simpl; [reflexivity | rewrite IH; lia]. Qed.

(** The groups of a table partition it: their sizes add up to its size. *)
Lemma groups_partition (ks : list K) (rows : list A) :
  NoDup ks -> (forall r, In r rows -> In (key r) ks) ->
  list_sum (map (fun k => List.length (group_rows key eqb k rows)) ks)
  = List.length rows.
Proof.
  intros Hnd. induction rows as [|a t IH]; intros Hin.
  - unfold group_rows. simpl. clear Hnd Hin.
    induction ks as [|k ks' IHk]; simpl; [reflexivity | exact IHk].
  - rewrite (map_ext _ (fun k => ((if eqb (key a) k then 1 else 0)
                                   + List.length (group_rows key eqb k t))%nat)).
    + rewrite list_sum_split, hits_once, IH; auto.
      * intros r Hr. apply Hin. now right.
      * apply Hin. now left.
    + intros k. unfold group_rows. simpl. destruct (eqb (key a) k); reflexivity.
Qed.
End Partition.

Lemma sum_of_nat (A : Type) (f : A -> nat) (l : list A) :
  fold_right Z.add 0%Z (map (fun x => Z.of_nat (f x)) l)
  = Z.of_nat (list_sum (map f l)).
Proof. induction l as [|a t IH]; simpl; [reflexivity | rewrite IH; lia]. Qed.

(** X8: data_points of a history point is the number of observations of its
    (product_id, date, site) that have a price and fall in the 90 days
    before now, and is at least 1; over all the points these counts add up
    to the number of such observations in the table. *)
Theorem price_history_data_points (now : Z) (products : list Products.row) :
  (forall h, In h (price_history_aggregated now products) ->
     data_points h
     = Z.of_nat (List.length (group_of now products (product_id h, date h, site h)))
     /\ (1 <= data_points h)%Z) /\
  fold_right Z.add 0%Z (map data_points (price_history_aggregated now products))
  = Z.of_nat (List.length (filter (selected now) products)).
Proof.
  split.
  - intros h Hh. apply in_price_history in Hh.
    destruct Hh as ([[p dt] s] & -> & r & Hr). simpl. split; [reflexivity|].
    destruct (group_of now products (p, dt, s)); [destruct Hr | simpl; lia].
  - unfold price_history_aggregated, group_by. rewrite !map_map. simpl.
    rewrite (sum_of_nat _ (fun k => List.length
                             (group_rows key key_eqb k (filter (selected now) products)))).
    f_equal. apply (groups_partition _ _ key key_eqb history_key_eqb_eq).
    + apply (NoDup_distinct history_key_eqb_eq).
    + intros r Hr. apply (in_distinct history_key_eqb_eq). now apply in_map.
Qed.

Lemma price_history_data_points_witness :
  data_points Examples.two_currencies_point
  = Z.of_nat (List.length
                (group_of Examples.now Examples.two_currencies
                   ("P1"%string, 95%Z, "amazon"%string))) /\
  (1 <= data_points Examples.two_currencies_point)%Z.
Proof.
  apply (proj1 (price_history_data_points Examples.now Examples.two_currencies)
           Examples.two_currencies_point).
  vm_compute. left. reflexivity.
Defined.

Lemma inject_succ (n : nat) :
  inject_Z (Z.of_nat (S n)) == inject_Z (Z.of_nat n) + 1.
Proof. rewrite Nat2Z.inj_succ. unfold Z.succ. now rewrite inject_Z_plus. Qed.

Lemma fold_plus_bounds (mn mx : Q) (t : list Q) : forall acc,
  (forall y, In y t -> mn <= y /\ y <= mx) ->
  acc + mn * inject_Z (Z.of_nat (List.length t)) <= fold_left Qplus t acc /\
  fold_left Qplus t acc <= acc + mx * inject_Z (Z.of_nat (List.length t)).
Proof.
  induction t as [|y t IH]; intros acc H.
  - simpl. setoid_replace (inject_Z 0) with 0 by reflexivity. split; lra.
  - destruct (H y (or_introl eq_refl)) as [H1 H2].
    destruct (IH (acc + y) (fun z Hz => H z (or_intror Hz))) as [L U].
    change (fold_left Qplus (y :: t) acc) with (fold_left Qplus t (acc + y)).
    change (List.length (y :: t)) with (S (List.length t)).
    rewrite inject_succ. split; lra.
Qed.

(** X9: the average price of a history point lies between its least and its
    greatest price. *)
Theorem price_history_avg_between (now : Z) (products : list Products.row)
    (h : row) :
  In h (price_history_aggregated now products) ->
  exists mn av mx,
    min_price h = Some mn /\ avg_price h = Some av /\ max_price h = Some mx /\
    mn <= av /\ av <= mx.
Proof.
  intros Hh. apply in_price_history in Hh. destruct Hh as (k & -> & r & Hr).
  simpl. set (g := group_of now products k) in *.
  assert (Hp : exists p, In (Some p) (map Products.price g)).
  { pose proof Hr as Hr'. apply (in_group_rows key history_key_eqb_eq) in Hr'.
    destruct Hr' as [Hr' _]. apply filter_In in Hr'. destruct Hr' as [_ Hs].
    unfold selected in Hs. destruct (Products.price r) as [p|] eqn:Ep; [|discriminate].
    exists p. rewrite <- Ep. now apply in_map. }
  destruct Hp as [p Hp].
  destruct (agg_min_spec Qle_bool_total Qle_bool_trans _ _ Hp) as (mn & Emn & _ & Hmin).
  destruct (agg_max_spec Qle_bool_total Qle_bool_trans _ _ Hp) as (mx & Emx & _ & Hmax).
  rewrite Emn, Emx. unfold agg_avg.
  assert (Hb : forall y, In y (non_null (map Products.price g)) -> mn <= y /\ y <= mx).
  { intros y Hy. apply in_non_null in Hy.
    split; apply Qle_bool_iff; [now apply Hmin | now apply Hmax]. }
  destruct (non_null (map Products.price g)) as [|x t] eqn:En.
  { apply in_non_null in Hp. rewrite En in Hp. destruct Hp. }
  exists mn, (fold_left Qplus t x / inject_Z (Z.of_nat (List.length (x :: t)))), mx.
  repeat split; try reflexivity.
  - destruct (fold_plus_bounds mn mx t x (fun y Hy => Hb y (or_intror Hy))) as [L _].
    destruct (Hb x (or_introl eq_refl)) as [Hx _].
    apply Qle_shift_div_l.
    + change 0 with (inject_Z 0). rewrite <- Zlt_Qlt. simpl. lia.
    + change (List.length (x :: t)) with (S (List.length t)).
      rewrite inject_succ. lra.
  - destruct (fold_plus_bounds mn mx t x (fun y Hy => Hb y (or_intror Hy))) as [_ U].
    destruct (Hb x (or_introl eq_refl)) as [_ Hx].
    apply Qle_shift_div_r.
    + change 0 with (inject_Z 0). rewrite <- Zlt_Qlt. simpl. lia.
    + change (List.length (x :: t)) with (S (List.length t)).
      rewrite inject_succ. lra.
Qed.

Lemma price_history_avg_between_witness :
  exists mn av mx,
    min_price Examples.two_currencies_point = Some mn /\
    avg_price Examples.two_currencies_point = Some av /\
    max_price Examples.two_currencies_point = Some mx /\
    mn <= av /\ av <= mx.
Proof.
  apply (price_history_avg_between Examples.now Examples.two_currencies).
  vm_compute. left. reflexivity.
Defined.

Lemma date_of_window (now : Z) :
  date_of (LatestPrices.timestamp_sub_days now 90) = (date_of now - 90)%Z.
Proof.
  unfold date_of, LatestPrices.timestamp_sub_days.
  replace (now - 90 * LatestPrices.usec_per_day)%Z
    with (now + (-90) * LatestPrices.usec_per_day)%Z by lia.
  rewrite Z.div_add by (unfold LatestPrices.usec_per_day; lia). lia.
Qed.

(** X10: the view holds one point per (product_id, date, site), and no point
    is dated more than 90 days before the day of now. *)
Theorem price_history_keys_and_window (now : Z) (products : list Products.row) :
  NoDup (map (fun h => (product_id h, date h, site h))
           (price_history_aggregated now products)) /\
  forall h, In h (price_history_aggregated now products) ->
            (date_of now - 90 <= date h)%Z.
Proof.
  split.
  - unfold price_history_aggregated. rewrite map_map.
    rewrite (map_ext _ fst).
    + apply (NoDup_group_keys key history_key_eqb_eq).
    + intros [[[p dt] s] g]. reflexivity.
  - intros h Hh. apply in_price_history in Hh.
    destruct Hh as ([[p dt] s] & -> & r & Hr). simpl.
    apply (in_group_rows key history_key_eqb_eq) in Hr. destruct Hr as [Hr Hk].
    apply filter_In in Hr. destruct Hr as [_ Hs]. unfold selected in Hs.
    destruct (Products.price r); [|discriminate]. apply Z.leb_le in Hs.
    unfold key in Hk. injection Hk as _ <- _.
    rewrite <- date_of_window. unfold date_of.
    apply Z.div_le_mono; [unfold LatestPrices.usec_per_day; lia | assumption].
Qed.

Lemma price_history_keys_and_window_witness :
  (date_of Examples.now - 90 <= date Examples.two_currencies_point)%Z.
Proof.
  apply (proj2 (price_history_keys_and_window Examples.now Examples.two_currencies)
           Examples.two_currencies_point).
  vm_compute. left. reflexivity.
Defined.

End PriceHistoryMore.

(** ** Further properties of [product_brands] *)

Module ProductBrandsMore.

Import Sql SqlFacts ProductBrands ProductBrandsFacts.

Lemma count_desc_total a b : count_desc a b = true \/ count_desc b a = true.
Proof. unfold count_desc. rewrite !Z.leb_le. lia. Qed.

Lemma count_desc_trans a b c :
  count_desc a b = true -> count_desc b c = true -> count_desc a c = true.
Proof. unfold count_desc. rewrite !Z.leb_le. lia. Qed.

(** X11: the view lists the brands by product_count descending, each brand
    once. *)
Theorem product_brands_sorted_unique (latest : list LatestPrices.row) :
  StronglySorted (fun a b => (product_count b <= product_count a)%Z)
    (product_brands latest) /\
  NoDup (map brand (product_brands latest)).
Proof.
  unfold product_brands. split.
  - pose proof (order_by_sorted count_desc_total count_desc_trans
                  (map select_group
                     (group_by row_brand option_string_eqb (filter branded latest))))
      as Hs.
    induction Hs as [|a t Hs IH Hall]; constructor; [assumption|].
    rewrite Forall_forall in *. intros x Hx. apply Z.leb_le. now apply Hall.
  - apply (Permutation_NoDup (Permutation_map _ (order_by_perm count_desc _))).
    rewrite map_map. simpl.
    apply (NoDup_group_keys row_brand option_string_eqb_eq).
Qed.

Lemma distinct_length_le (l : list string) :
  (List.length (distinct String.eqb l) <= List.length l)%nat.
Proof.
  induction l as [|a t IH]; simpl; [lia|].
  pose proof (filter_length_le (fun k' => negb (String.eqb a k')) (distinct String.eqb t)).
  lia.
Qed.

Lemma distinct_nonempty (l : list string) (x : string) :
  In x l -> (1 <= List.length (distinct String.eqb l))%nat.
Proof. destruct l; simpl; [tauto | lia]. Qed.

(** X12: for every returned brand, product_count and retailer_count are at
    least 1 and at most the number of latest rows that carry the brand. *)
Theorem product_brands_count_bounds (latest : list LatestPrices.row)
    (b : row) :
  In b (product_brands latest) ->
  let n := Z.of_nat (List.length
             (filter (fun l => option_string_eqb (row_brand l) (brand b)) latest)) in
  (1 <= product_count b <= n)%Z /\ (1 <= retailer_count b <= n)%Z.
Proof.
  intros Hb. apply in_product_brands in Hb.
  destruct Hb as (k & -> & l0 & Hl0 & Hb0 & Hk0). simpl.
  set (g := group_rows row_brand option_string_eqb k (filter branded latest)).
  assert (Hg0 : In l0 g).
  { apply (in_group_rows row_brand option_string_eqb_eq). split; [|assumption].
    apply filter_In. auto. }
  assert (Hlen : (List.length g
                  <= List.length (filter (fun l => option_string_eqb (row_brand l) k) latest))%nat).
  { unfold g, group_rows. rewrite ArbitrageFacts.filter_filter_and.
    apply ArbitrageFacts.filter_length_le. intros x Hx.
    apply andb_true_iff in Hx. tauto. }
  unfold count_distinct.
  pose proof (distinct_length_le (map row_product_id g)) as P1.
  pose proof (distinct_length_le (map row_site g)) as S1.
  pose proof (distinct_nonempty (map row_product_id g) _ (in_map row_product_id _ _ Hg0)) as P2.
  pose proof (distinct_nonempty (map row_site g) _ (in_map row_site _ _ Hg0)) as S2.
  rewrite !length_map in *. lia.
Qed.

Lemma product_brands_count_bounds_witness :
  (1 <= product_count Examples.acme <= 3)%Z /\
  (1 <= retailer_count Examples.acme <= 3)%Z.
Proof.
  apply (product_brands_count_bounds acme_latest Examples.acme).
  vm_compute. left. reflexivity.
Defined.

End ProductBrandsMore.

(** ** Properties of the selections *)

Module SelectionFacts.

Import Selection.

Lemma includes_In l x : includes l x = true <-> In x l.
Proof.
  unfold includes. rewrite existsb_exists. split.
  - intros (y & Hy & E). apply String.eqb_eq in E. now subst.
  - intros H. exists x. split; [assumption | apply String.eqb_refl].
Qed.

Lemma includes_false l x : includes l x = false <-> ~ In x l.
Proof.
  rewrite <- includes_In. destruct (includes l x); split; congruence.
Qed.

Lemma in_remove l x y :
  In y (filter (fun z => negb (String.eqb z x)) l) <-> In y l /\ y <> x.
Proof. now rewrite filter_In, negb_true_iff, String.eqb_neq. Qed.

(** X13: a toggle flips the membership of the toggled name, whatever the
    number of its occurrences, and leaves the membership of every other name
    as it was. *)
Theorem toggle_membership (l : list string) (x y : string) :
  In y (toggle l x) <-> (if String.eqb y x then ~ In x l else In y l).
Proof.
  unfold toggle. destruct (includes l x) eqn:E.
  - apply includes_In in E. rewrite in_remove.
    destruct (String.eqb_spec y x) as [->|Hne]; tauto.
  - apply includes_false in E. rewrite in_app_iff. simpl.
    destruct (String.eqb_spec y x) as [->|Hne]; [tauto|].
    split; [intros [H|[H|[]]]; [assumption | congruence] | auto].
Qed.

Lemma toggle_membership_witness :
  In "P3"%string (toggle ["P1"; "P2"]%string "P3").
Proof.
  apply (proj2 (toggle_membership ["P1"; "P2"]%string "P3" "P3")).
  simpl. intuition discriminate.
Defined.

(** X14: a selection without repetition stays without repetition under
    [handleProductSelect], [toggleBrand] and [toggleRetailer]. *)
Theorem toggle_NoDup (prev : list string) (filters : FilterState) (x : string) :
  (NoDup prev -> NoDup (handleProductSelect prev x)) /\
  (NoDup (brands filters) -> NoDup (brands (toggleBrand filters x))) /\
  (NoDup (retailers filters) -> NoDup (retailers (toggleRetailer filters x))).
Proof.
  assert (H : forall l, NoDup l -> NoDup (toggle l x)).
  { intros l Hl. unfold toggle. destruct (includes l x) eqn:E.
    - now apply SqlFacts.NoDup_filter.
    - apply includes_false in E. apply NoDup_app; [assumption | repeat constructor; tauto |].
      intros a Ha [<-|[]]. contradiction. }
  repeat split; apply H.
Qed.

Lemma toggle_NoDup_witness :
  NoDup (handleProductSelect ["P1"; "P2"]%string "P3").
Proof.
  apply (proj1 (toggle_NoDup ["P1"; "P2"]%string
                  (mkFilterState EmptyString [] [] None None) "P3")).
  repeat constructor; simpl; intuition discriminate.
Defined.

(** X15: toggling twice a name that was not selected restores the
    selection; toggling twice a name that was selected moves it to the end:
    the selection keeps its members, not their order. *)
Theorem toggle_twice (l : list string) (x : string) :
  (~ In x l -> toggle (toggle l x) x = l) /\
  (In x l -> toggle (toggle l x) x
             = filter (fun y => negb (String.eqb y x)) l ++ [x]).
Proof.
  split; intros Hx.
  - unfold toggle at 2. rewrite (proj2 (includes_false l x) Hx).
    unfold toggle.
    rewrite (proj2 (includes_In (l ++ [x]) x)) by (apply in_app_iff; simpl; auto).
    rewrite filter_app. simpl. rewrite String.eqb_refl. simpl. rewrite app_nil_r.
    apply LatestPricesMore.filter_all_true. intros y Hy.
    apply negb_true_iff, String.eqb_neq. congruence.
  - unfold toggle at 2. rewrite (proj2 (includes_In l x) Hx).
    unfold toggle.
    rewrite (proj2 (includes_false _ x)); [reflexivity|].
    rewrite in_remove. tauto.
Qed.

Lemma toggle_twice_witness :
  toggle (toggle ["P1"; "P2"]%string "P1") "P1" = ["P2"; "P1"]%string.
Proof.
  apply (proj2 (toggle_twice ["P1"; "P2"]%string "P1")). left. reflexivity.
Defined.

Lemma split_nonempty s : split s <> [].
Proof.
  destruct s as [|c rest]; simpl; [discriminate|].
  destruct (Ascii.eqb c comma); [discriminate|].
  destruct (split rest); discriminate.
Qed.

Lemma split_concat s : String.concat "," (split s) = s.
Proof.
  induction s as [|c rest IH]; simpl; [reflexivity|].
  destruct (Ascii.eqb_spec c comma) as [->|Hne].
  - pose proof (split_nonempty rest) as Hn.
    destruct (split rest) as [|p ps]; [contradiction|].
    change (String.concat "," (EmptyString :: p :: ps))
      with (String comma (String.concat "," (p :: ps))).
    now rewrite IH.
  - pose proof (split_nonempty rest) as Hn.
    destruct (split rest) as [|p ps]; [contradiction|].
    rewrite <- IH. destruct ps; reflexivity.
Qed.

Lemma split_pieces s : forall p, In p (split s) -> has_comma p = false.
Proof.
  induction s as [|c rest IH]; simpl.
  - intros p [<-|[]]. reflexivity.
  - destruct (Ascii.eqb c comma) eqn:E.
    + intros p [<-|Hp]; [reflexivity | now apply IH].
    + pose proof (split_nonempty rest) as Hn.
      destruct (split rest) as [|q qs]; [contradiction|].
      intros p [<-|Hp].
      * simpl. rewrite E. apply IH. now left.
      * apply IH. now right.
Qed.

Lemma split_no_comma s : has_comma s = false -> split s = [s].
Proof.
  induction s as [|c rest IH]; simpl; [reflexivity|].
  destruct (Ascii.eqb c comma); [discriminate|]. simpl.
  intros H. now rewrite (IH H).
Qed.

(** X16: a non-empty [product_ids] parameter selects at least one name,
    none of which holds a comma, and joining the names with commas gives the
    parameter back; a name without comma therefore selects itself alone, as
    in the link of an arbitrage card.  A missing or empty parameter leaves
    the selection as it is. *)
Theorem selection_from_param_round_trip (s : string) (selected : list string) :
  s <> EmptyString ->
  selection_from_param (Some s) selected <> [] /\
  String.concat "," (selection_from_param (Some s) selected) = s /\
  (forall p, In p (selection_from_param (Some s) selected) -> has_comma p = false) /\
  (has_comma s = false -> selection_from_param (Some s) selected = [s]) /\
  selection_from_param None selected = selected /\
  selection_from_param (Some EmptyString) selected = selected.
Proof.
  intros Hs.
  assert (E : selection_from_param (Some s) selected = split s)
    by (destruct s; [contradiction | reflexivity]).
  rewrite E. repeat split.
  - apply split_nonempty.
  - apply split_concat.
  - apply split_pieces.
  - apply split_no_comma.
Qed.

Lemma selection_from_param_round_trip_witness :
  String.concat "," (selection_from_param (Some "P1,P2"%string) []) = "P1,P2"%string.
Proof.
  apply (selection_from_param_round_trip "P1,P2" []). discriminate.
Defined.

End SelectionFacts.

(** ** Properties of the paging of the search page *)

Module SearchPageFacts.

Import SearchPage.

Lemma run_snoc page events e : run page (events ++ [e]) = step (run page events) e.
Proof. unfold run. now rewrite fold_left_app. Qed.

(** X17: whatever the responses report from one fetch to the next, as long
    as each response shown when Next is pressed has at least one page and at
    most [bound], a page number that starts between 1 and [bound] (the page
    starts at 1) stays there under every sequence of Previous, Next and
    filter changes; right after Next it does not exceed the total_pages of
    the response that was on display; Previous on page 1 and Next on the
    last page of the response on display change nothing. *)
Theorem page_in_range (bound page : Z) (events : list event) :
  (1 <= page <= bound)%Z -> totals_within bound events ->
  (1 <= run page events <= bound)%Z /\
  (forall t, (1 <= t <= bound)%Z -> (run page (events ++ [Next t]) <= t)%Z) /\
  step 1 Previous = 1%Z /\
  (forall t, step t (Next t) = t).
Proof.
  intros Hp Ht.
  assert (Hrun : (1 <= run page events <= bound)%Z).
  { unfold run. revert page Hp. unfold totals_within in Ht.
    induction events as [|e es IH]; intros page Hp; simpl; [assumption|].
    apply IH.
    - intros t Hin. apply Ht. now right.
    - destruct e as [|t|]; unfold step; try lia.
      specialize (Ht t (or_introl eq_refl)). lia. }
  split; [exact Hrun|]. split; [|split].
  - intros t Hb. rewrite run_snoc. unfold step. lia.
  - reflexivity.
  - intros t. unfold step. lia.
Qed.

Lemma page_in_range_witness :
  (1 <= run 1 [Next 3; Next 3; Next 5; Previous; FilterChange; Next 2] <= 5)%Z.
Proof.
  apply (page_in_range 5 1 [Next 3; Next 3; Next 5; Previous; FilterChange; Next 2]).
  - lia.
  - intros t Hin. simpl in Hin.
    destruct Hin as [E|[E|[E|[E|[E|[E|[]]]]]]]; inversion E; lia.
Defined.

End SearchPageFacts.

(** ** Properties of the price chart *)

Module PriceChartFacts.

Import PriceChart.

Lemma get_set_same o k v : get (set o k v) k = Some v.
Proof.
  induction o as [|[k' v'] t IH]; simpl.
  - now rewrite String.eqb_refl.
  - destruct (String.eqb k' k) eqn:E; simpl; rewrite E; [reflexivity | assumption].
Qed.

Lemma get_set_other o k v k' : k' <> k -> get (set o k v) k' = get o k'.
Proof.
  intros Hne. induction o as [|[k0 v0] t IH]; simpl.
  - destruct (String.eqb_spec k k'); [congruence | reflexivity].
  - destruct (String.eqb_spec k0 k) as [->|Hk]; simpl.
    + destruct (String.eqb_spec k k'); [congruence | reflexivity].
    + destruct (String.eqb k0 k'); [reflexivity | assumption].
Qed.

Lemma same_date_iff pt d :
  same_date pt d = true <-> row_date d = Some (VString (date pt)).
Proof.
  unfold same_date, row_date. destruct (get d "date") as [[s|n]|].
  - rewrite String.eqb_eq. split; congruence.
  - split; discriminate.
  - split; discriminate.
Qed.

Lemma update_existing_none acc pt :
  (forall d, In d acc -> same_date pt d = false) -> update_existing acc pt = None.
Proof.
  induction acc as [|d t IH]; simpl; intros H; [reflexivity|].
  rewrite (H d (or_introl eq_refl)), IH; [reflexivity|].
  intros x Hx. apply H. now right.
Qed.

Lemma update_existing_some acc pt d0 :
  NoDup (map row_date acc) -> In d0 acc -> same_date pt d0 = true ->
  update_existing acc pt = Some (map (updated pt) acc).
Proof.
  induction acc as [|d t IH]; simpl; intros Hn Hin Hd0; [destruct Hin|].
  inversion Hn as [|? ? Hnotin Hn']; subst. unfold updated at 1.
  destruct (same_date pt d) eqn:E.
  - f_equal. f_equal. symmetry. rewrite <- (map_id t) at 2. apply map_ext_in.
    intros x Hx. unfold updated. destruct (same_date pt x) eqn:Ex; [|reflexivity].
    exfalso. apply Hnotin. apply same_date_iff in E, Ex. rewrite E, <- Ex.
    now apply in_map.
  - destruct Hin as [->|Hin]; [congruence|]. now rewrite (IH Hn' Hin Hd0).
Qed.

Lemma chartData_snoc data pt :
  chartData (data ++ [pt]) = add_point (chartData data) pt.
Proof. unfold chartData. now rewrite fold_left_app. Qed.

Lemma last_price_snoc data pt d s :
  last_price (data ++ [pt]) d s
  = if String.eqb (date pt) d && String.eqb (site pt) s
    then Some (price pt) else last_price data d s.
Proof.
  unfold last_price. rewrite rev_app_distr. simpl.
  now destruct (String.eqb (date pt) d && String.eqb (site pt) s).
Qed.

Lemma last_price_some data d s n :
  last_price data d s = Some n ->
  exists pt, In pt data /\ date pt = d /\ site pt = s /\ price pt = n.
Proof.
  unfold last_price. destruct (find _ (rev data)) as [pt|] eqn:E; [|discriminate].
  intros [= <-]. apply find_some in E. destruct E as [Hin Hb].
  apply andb_true_iff in Hb. rewrite !String.eqb_eq in Hb.
  exists pt. rewrite in_rev. tauto.
Qed.

Lemma last_price_none data d s pt :
  In pt data -> date pt = d -> site pt = s -> last_price data d s <> None.
Proof.
  unfold last_price. intros Hin Hd Hs.
  destruct (find _ (rev data)) as [x|] eqn:E; [discriminate|].
  rewrite in_rev in Hin. apply (find_none _ _ E) in Hin.
  rewrite Hd, Hs, !String.eqb_refl in Hin. discriminate.
Qed.

Lemma fresh_date pt : site pt <> "date"%string ->
  row_date (fresh pt) = Some (VString (date pt)).
Proof.
  intros Hs. unfold row_date, fresh. rewrite get_set_other by congruence.
  apply get_set_same.
Qed.

Lemma updated_date pt d : site pt <> "date"%string ->
  row_date (updated pt d) = row_date d.
Proof.
  intros Hs. unfold updated, row_date.
  destruct (same_date pt d); [|reflexivity]. apply get_set_other. congruence.
Qed.

Lemma chart_invariant_step data acc pt :
  site pt <> "date"%string ->
  chart_invariant data acc -> chart_invariant (data ++ [pt]) (add_point acc pt).
Proof.
  intros Hs (I1 & I2 & I3 & I4). unfold add_point.
  destruct (existsb (same_date pt) acc) eqn:Ex.
  - apply existsb_exists in Ex. destruct Ex as (d0 & Hd0 & Sd0).
    rewrite (update_existing_some acc pt d0 I2 Hd0 Sd0).
    assert (Hmap : map row_date (map (updated pt) acc) = map row_date acc).
    { rewrite map_map. apply map_ext. intros d. now apply updated_date. }
    repeat split.
    + intros row Hrow. apply in_map_iff in Hrow. destruct Hrow as (r & <- & Hr).
      rewrite updated_date by assumption. now apply I1.
    + now rewrite Hmap.
    + intros row d s Hrow Hd Hsd. apply in_map_iff in Hrow.
      destruct Hrow as (r & <- & Hr). rewrite updated_date in Hd by assumption.
      rewrite last_price_snoc. unfold updated.
      destruct (same_date pt r) eqn:Er.
      * apply same_date_iff in Er. rewrite Hd in Er. injection Er as ->.
        rewrite String.eqb_refl. simpl.
        destruct (String.eqb_spec (site pt) s) as [<-|Hne].
        -- apply get_set_same.
        -- rewrite get_set_other by congruence. now apply I3.
      * destruct (String.eqb_spec (date pt) d) as [<-|Hne]; simpl.
        -- apply same_date_iff in Hd. congruence.
        -- now apply I3.
    + intros (row & Hrow & Hd). apply in_map_iff in Hrow.
      destruct Hrow as (r & <- & Hr). rewrite updated_date in Hd by assumption.
      destruct (proj1 (I4 d) (ex_intro _ r (conj Hr Hd))) as (p & Hp & Ep).
      exists p. split; [apply in_app_iff; now left | assumption].
    + intros (p & Hp & Ep). apply in_app_iff in Hp.
      assert (Hex : exists r, In r acc /\ row_date r = Some (VString d)).
      { destruct Hp as [Hp|[<-|[]]].
        - apply I4. eauto.
        - exists d0. split; [assumption|]. rewrite <- Ep. now apply same_date_iff. }
      destruct Hex as (r & Hr & Hd). exists (updated pt r). split.
      * now apply in_map.
      * now rewrite updated_date.
  - assert (Hno : forall d, In d acc -> same_date pt d = false).
    { intros d Hd. destruct (same_date pt d) eqn:E; [|reflexivity].
      assert (existsb (same_date pt) acc = true)
        by (apply existsb_exists; eauto). congruence. }
    rewrite (update_existing_none acc pt Hno).
    assert (Hnew : forall p, In p data -> date p <> date pt).
    { intros p Hp E.
      destruct (proj2 (I4 (date pt)) (ex_intro _ p (conj Hp E))) as (r & Hr & Hd).
      apply same_date_iff in Hd. rewrite (Hno r Hr) in Hd. discriminate. }
    repeat split.
    + intros row Hrow. apply in_app_iff in Hrow. destruct Hrow as [Hrow|[<-|[]]].
      * now apply I1.
      * exists (date pt). now apply fresh_date.
    + rewrite map_app. simpl. rewrite fresh_date by assumption.
      apply NoDup_app; [assumption | repeat constructor; tauto |].
      intros v Hv [<-|[]]. apply in_map_iff in Hv. destruct Hv as (r & Hd & Hr).
      apply same_date_iff in Hd. rewrite (Hno r Hr) in Hd. discriminate.
    + intros row d s Hrow Hd Hsd. rewrite last_price_snoc.
      apply in_app_iff in Hrow. destruct Hrow as [Hrow|[<-|[]]].
      * destruct (String.eqb_spec (date pt) d) as [<-|Hne]; simpl.
        -- apply same_date_iff in Hd. rewrite (Hno row Hrow) in Hd. discriminate.
        -- now apply I3.
      * rewrite fresh_date in Hd by assumption. injection Hd as <-.
        rewrite String.eqb_refl. simpl. unfold fresh.
        destruct (String.eqb_spec (site pt) s) as [<-|Hne].
        -- apply get_set_same.
        -- rewrite get_set_other by congruence.
           rewrite get_set_other by congruence. simpl.
           destruct (last_price data (date pt) s) as [n|] eqn:El; [|reflexivity].
           apply last_price_some in El. destruct El as (p & Hp & Ep & _).
           exfalso. now apply (Hnew p).
    + intros (row & Hrow & Hd). apply in_app_iff in Hrow.
      destruct Hrow as [Hrow|[<-|[]]].
      * destruct (proj1 (I4 d) (ex_intro _ row (conj Hrow Hd))) as (p & Hp & Ep).
        exists p. split; [apply in_app_iff; now left | assumption].
      * rewrite fresh_date in Hd by assumption. injection Hd as <-.
        exists pt. split; [apply in_app_iff; right; now left | reflexivity].
    + intros (p & Hp & Ep). apply in_app_iff in Hp. destruct Hp as [Hp|[<-|[]]].
      * destruct (proj2 (I4 d) (ex_intro _ p (conj Hp Ep))) as (r & Hr & Hd).
        exists r. split; [apply in_app_iff; now left | assumption].
      * exists (fresh pt). split; [apply in_app_iff; right; now left|].
        rewrite <- Ep. now apply fresh_date.
Qed.

Lemma chart_invariant_holds data :
  (forall pt, In pt data -> series_name (site pt)) ->
  chart_invariant data (chartData data).
Proof.
  induction data as [|pt data IH] using rev_ind; intros Hs.
  - repeat split; simpl; try tauto; try constructor.
    + intros (row & [] & _).
    + intros (p & [] & _).
  - rewrite chartData_snoc. apply chart_invariant_step.
    + apply (Hs pt). apply in_app_iff. right. now left.
    + apply IH. intros p Hp. apply Hs. apply in_app_iff. now left.
Qed.

(** X18: when no site bears the name of the [date] property (or
    [__proto__]), the chart data hold exactly one row per date of the
    history: every row has a date, no two rows have the same, and the dates
    of the rows are the dates of the points. *)
Theorem chartData_one_row_per_date (data : list point) :
  (forall pt, In pt data -> series_name (site pt)) ->
  (forall row, In row (chartData data) -> exists d, row_date row = Some (VString d)) /\
  NoDup (map row_date (chartData data)) /\
  (forall d, (exists row, In row (chartData data) /\ row_date row = Some (VString d)) <->
             (exists pt, In pt data /\ date pt = d)).
Proof.
  intros Hs. destruct (chart_invariant_holds data Hs) as (I1 & I2 & _ & I4). auto.
Qed.

Lemma sample_series : forall pt, In pt sample -> series_name (site pt).
Proof.
  intros pt Hpt. vm_compute in Hpt.
  destruct Hpt as [<-|[<-|[<-|[<-|[]]]]]; split; discriminate.
Qed.

Lemma chartData_one_row_per_date_witness :
  NoDup (map row_date (chartData sample)).
Proof.
  exact (proj1 (proj2 (chartData_one_row_per_date sample sample_series))).
Defined.

(** X19: in the row of a date, the property of a site is the price of the
    last point of the history for that date and that site, and is absent
    when the history has no such point: a later point replaces an earlier
    one. *)
Theorem chartData_last_price_wins (data : list point) (row : object)
    (d s : string) :
  (forall pt, In pt data -> series_name (site pt)) ->
  In row (chartData data) -> row_date row = Some (VString d) -> series_name s ->
  get row s = option_map VNumber (last_price data d s).
Proof.
  intros Hs Hrow Hd [Hsd _].
  destruct (chart_invariant_holds data Hs) as (_ & _ & I3 & _). now apply I3.
Qed.

Lemma chartData_last_price_wins_witness :
  get [("date", VString "2024-01-01"); ("amazon", VNumber 99); ("walmart", VNumber 80)]%string
      "amazon"
  = option_map VNumber (last_price sample "2024-01-01" "amazon").
Proof.
  apply (chartData_last_price_wins sample).
  - exact sample_series.
  - vm_compute. left. reflexivity.
  - reflexivity.
  - split; discriminate.
Defined.

(** X20: the legend and the rows agree: the legend lists each site once,
    and a site is in the legend exactly when some row of the chart holds a
    price under its name. *)
Theorem chartData_sites_agree (data : list point) :
  (forall pt, In pt data -> series_name (site pt)) ->
  NoDup (sites data) /\
  forall s, series_name s ->
    (In s (sites data) <->
     exists row n, In row (chartData data) /\ get row s = Some (VNumber n)).
Proof.
  intros Hs. destruct (chart_invariant_holds data Hs) as (I1 & _ & I3 & I4).
  split; [apply (SqlFacts.NoDup_distinct String.eqb_eq)|].
  intros s [Hsd _]. unfold sites. split.
  - intros Hin. apply (proj1 (SqlFacts.in_distinct String.eqb_eq _ _)) in Hin.
    apply in_map_iff in Hin. destruct Hin as (pt & Es & Hpt).
    destruct (proj2 (I4 (date pt)) (ex_intro _ pt (conj Hpt eq_refl))) as (row & Hrow & Hd).
    pose proof (I3 row (date pt) s Hrow Hd Hsd) as Hget.
    destruct (last_price data (date pt) s) as [n|] eqn:El.
    + exists row, n. auto.
    + exfalso. now apply (last_price_none data (date pt) s pt).
  - intros (row & n & Hrow & Hget).
    destruct (I1 row Hrow) as [d Hd].
    rewrite (I3 row d s Hrow Hd Hsd) in Hget.
    destruct (last_price data d s) as [n'|] eqn:El; [|discriminate].
    apply last_price_some in El. destruct El as (pt & Hpt & _ & Es & _).
    apply (SqlFacts.in_distinct String.eqb_eq). rewrite <- Es. now apply in_map.
Qed.

Lemma chartData_sites_agree_witness : NoDup (sites sample).
Proof. exact (proj1 (chartData_sites_agree sample sample_series)). Defined.

End PriceChartFacts.

(** ** Properties of the arbitrage cards *)

Module ArbitrageCardFacts.

Import ArbitrageCard.

(** X21: the badge is gray exactly for margins under 10 and green exactly
    for margins of 30 or more; hence no opportunity returned under the
    initial thresholds of the arbitrage page (margin 10, difference 5) gets
    the gray badge. *)
Theorem badge_of_returned_opportunity (margin : Q) :
  (getProfitColor margin = "text-gray-600 bg-gray-100"%string <-> margin < 10) /\
  (getProfitColor margin = "text-green-600 bg-green-100"%string <-> 30 <= margin) /\
  (forall latest rows o,
     Arbitrage.arbitrage_query initial_min_margin initial_min_price_diff latest
       = Sql.Ok rows ->
     In o rows -> Arbitrage.profit_margin_pct o = Some margin ->
     getProfitColor margin <> "text-gray-600 bg-gray-100"%string).
Proof.
  assert (G : getProfitColor margin = "text-gray-600 bg-gray-100"%string <-> margin < 10).
  { unfold getProfitColor.
    destruct (Qle_bool 30 margin) eqn:E30; [apply Qle_bool_iff in E30|].
    { split; [discriminate | intros H; exfalso; lra]. }
    destruct (Qle_bool 20 margin) eqn:E20; [apply Qle_bool_iff in E20|].
    { split; [discriminate | intros H; exfalso; lra]. }
    destruct (Qle_bool 10 margin) eqn:E10.
    - apply Qle_bool_iff in E10. split; [discriminate | intros H; exfalso; lra].
    - split; [intros _ | reflexivity].
      apply Qnot_le_lt. intros H. apply Qle_bool_iff in H. congruence. }
  split; [exact G|]. split.
  - unfold getProfitColor. destruct (Qle_bool 30 margin) eqn:E30.
    + apply Qle_bool_iff in E30. tauto.
    + split; [|intros H; apply Qle_bool_iff in H; congruence].
      destruct (Qle_bool 20 margin); [discriminate|].
      destruct (Qle_bool 10 margin); discriminate.
  - intros latest rows o Hq Ho Em Hgray. apply G in Hgray.
    apply (ArbitrageFacts.in_arbitrage_query _ _ _ _ _ Hq) in Ho.
    destruct (ArbitrageFacts.having_columns _ _ _ (proj1 Ho)) as (x & _ & Ex & _ & Hx & _).
    rewrite Em in Ex. injection Ex as <-. unfold initial_min_margin in Hx. lra.
Qed.

Lemma badge_of_returned_opportunity_witness :
  getProfitColor (2000 # 80) <> "text-gray-600 bg-gray-100"%string.
Proof.
  apply (proj2 (proj2 (badge_of_returned_opportunity (2000 # 80)))
           Examples.scenario_latest [Examples.scenario_p1] Examples.scenario_p1).
  - vm_compute. reflexivity.
  - left. reflexivity.
  - reflexivity.
Defined.

End ArbitrageCardFacts.

(** ** The views together *)

Module CrossViews.

Import Sql SqlFacts.

(** X22: the history covers the latest prices: every latest row that has a
    price has a history point for its product, its site and the day it was
    scraped, and its price lies between the least and the greatest price of
    that point. *)
Theorem latest_price_has_history_point (now : Z) (products : list Products.row)
    (l : LatestPrices.row) (p : Q) :
  In l (LatestPrices.latest_prices now products) ->
  Products.price (LatestPrices.obs l) = Some p ->
  exists h mn mx,
    In h (PriceHistory.price_history_aggregated now products) /\
    PriceHistory.product_id h = Products.product_id (LatestPrices.obs l) /\
    PriceHistory.site h = Products.site (LatestPrices.obs l) /\
    PriceHistory.date h = PriceHistory.date_of (Products.scraped_at (LatestPrices.obs l)) /\
    PriceHistory.min_price h = Some mn /\ PriceHistory.max_price h = Some mx /\
    mn <= p /\ p <= mx.
Proof.
  intros Hl Hp. set (o := LatestPrices.obs l) in *.
  assert (Ho : In o products /\ LatestPrices.in_window now o = true).
  { destruct (LatestPricesMore.latest_prices_rows _ _ _ Hl) as [_ Hw].
    split; [|exact Hw].
    apply LatestPricesFacts.in_latest_prices in Hl. destruct Hl as (k & Hl & _).
    apply LatestPricesFacts.in_top in Hl. destruct Hl as (_ & Hin & _).
    apply (in_group_rows LatestPrices.key LatestPricesFacts.latest_key_eqb_eq) in Hin.
    destruct Hin as [Hin _]. apply filter_In in Hin. tauto. }
  destruct Ho as [Ho Hw].
  assert (Hsel : PriceHistory.selected now o = true).
  { unfold PriceHistory.selected. rewrite Hp. unfold LatestPrices.in_window in Hw.
    apply Z.leb_le in Hw. apply Z.leb_le.
    unfold LatestPrices.timestamp_sub_days, LatestPrices.usec_per_day in *. lia. }
  set (k := PriceHistory.key o).
  assert (Hg : In o (PriceHistory.group_of now products k)).
  { apply (in_group_rows PriceHistory.key PriceHistoryFacts.history_key_eqb_eq).
    split; [|reflexivity]. apply filter_In. auto. }
  assert (Hin : In (Some p) (map Products.price (PriceHistory.group_of now products k)))
    by (rewrite <- Hp; now apply in_map).
  destruct (agg_min_spec Qle_bool_total Qle_bool_trans _ _ Hin) as (mn & Emn & _ & Hmin).
  destruct (agg_max_spec Qle_bool_total Qle_bool_trans _ _ Hin) as (mx & Emx & _ & Hmax).
  exists (PriceHistory.select_group (k, PriceHistory.group_of now products k)), mn, mx.
  split; [apply PriceHistoryFacts.in_price_history; eauto|].
  simpl. repeat split; try assumption.
  - apply Qle_bool_iff. now apply Hmin.
  - apply Qle_bool_iff. now apply Hmax.
Qed.

Lemma latest_price_has_history_point_witness :
  exists h mn mx,
    In h (PriceHistory.price_history_aggregated Examples.now Examples.repeated) /\
    PriceHistory.product_id h = "P1"%string /\
    PriceHistory.site h = "amazon"%string /\
    PriceHistory.date h = 90%Z /\
    PriceHistory.min_price h = Some mn /\ PriceHistory.max_price h = Some mx /\
    mn <= 95 /\ 95 <= mx.
Proof.
  apply (latest_price_has_history_point Examples.now Examples.repeated
           Examples.repeated_latest_amazon 95).
  - vm_compute. left. reflexivity.
  - reflexivity.
Defined.

End CrossViews.
